(** * Visa appointment tracker: the polling cycle, the notifier and the
      worker loop

    A shallow embedding of [src/visa_tracker.py]: the cycle
    [AppointmentCheckerThread.check_appointments], the notifier
    [VisaTracker.handle_update] with [handle_error], and the loop of
    [AppointmentCheckerThread.run], with the Python values and library
    calls they rely on.

    Modelling choices.
    - The response body is a parsed JSON document, [json].  JSON numbers
      are the integers; numbers with a fraction or an exponent (Python
      floats) are outside the model.
    - A Python dict read from JSON is an association list, read with
      [dict_get]; [wf_json] says that its keys are distinct.
    - Strings are byte strings, as the repository stores them.
    - An exception is a value of [exn]; a computation that can raise
      returns a [res].  Logging is not modelled.
    - The settings are typed as the form fills them (the two countries are
      strings, the policy is a boolean), and [scan_history] holds the
      snapshots earlier cycles wrote.
    - The wall clock, the HTTP exchange, [datetime.fromisoformat], the
      system time zone and the C library's rendering of years are inputs
      of the model ([Runtime] and the arguments of [check_appointments]).
    - The messaging sink is the list of the texts posted to it.
    - The worker loop is followed through the successive readings of its
      stop flag; threads and the wall clock are not modelled.
    - Of the main window, [load_settings], [load_scan_history] and the
      interval box of the form are embedded: a file is what [open] and
      [json.load] make of it, the form is the value of its boxes.  The
      layout of the window and the HTTP call to the messaging service
      are not modelled. *)

From Stdlib Require Import ZArith Ascii String.
From stdpp Require Import base strings list gmap pretty sorting.

Local Open Scope string_scope.
Local Open Scope Z_scope.

Set Warnings "-register-all".

(** ** Exceptions *)

Inductive exn : Type :=
| TypeError
| ValueError
| AttributeError
| OverflowError
| KeyError
| RequestException.

Inductive res (A : Type) : Type :=
| Ok (a : A)
| Raise (e : exn).

Arguments Ok {A} a.
Arguments Raise {A} e.

Definition bind {A B : Type} (m : res A) (k : A -> res B) : res B :=
  match m with
  | Ok a => k a
  | Raise e => Raise e
  end.

#[global] Instance res_bind : MBind res := fun A B k m => bind m k.

(** ** JSON values with Python's view of them *)

Inductive json : Type :=
| JNull
| JBool (b : bool)
| JInt (n : Z)
| JStr (s : string)
| JList (l : list json)
| JDict (d : list (string * json)).

Fixpoint dict_get (k : string) (d : list (string * json)) : option json :=
  match d with
  | [] => None
  | (k', v) :: d' => if String.eqb k' k then Some v else dict_get k d'
  end.

(** [d.get(k, dflt)] *)
Definition py_get (d : list (string * json)) (k : string) (dflt : json) : json :=
  match dict_get k d with
  | Some v => v
  | None => dflt
  end.

(** [bool(v)] *)
Definition py_truthy (v : json) : bool :=
  match v with
  | JNull => false
  | JBool b => b
  | JInt n => negb (n =? 0)
  | JStr s => negb (String.eqb s "")
  | JList l => match l with [] => false | _ => true end
  | JDict d => match d with [] => false | _ => true end
  end.

Definition int_of_bool (b : bool) : Z := if b then 1 else 0.

(** [a == b]: numbers and booleans compare by value, lists element by
    element, dicts key by key whatever the order of their items. *)
Fixpoint py_eq (a b : json) {struct a} : bool :=
  match a, b with
  | JNull, JNull => true
  | JBool x, JBool y => int_of_bool x =? int_of_bool y
  | JBool x, JInt n => int_of_bool x =? n
  | JInt m, JBool y => m =? int_of_bool y
  | JInt m, JInt n => m =? n
  | JStr s, JStr t => String.eqb s t
  | JList xs, JList ys =>
      (fix go (xs ys : list json) {struct xs} : bool :=
         match xs, ys with
         | [], [] => true
         | x :: xs', y :: ys' => py_eq x y && go xs' ys'
         | _, _ => false
         end) xs ys
  | JDict d, JDict e =>
      (length d =? length e)%nat &&
      (fix go (d : list (string * json)) {struct d} : bool :=
         match d with
         | [] => true
         | (k, v) :: d' =>
             match dict_get k e with
             | Some w => py_eq v w
             | None => false
             end && go d'
         end) d
  | _, _ => false
  end.

(** [a != b] *)
Definition py_ne (a b : json) : bool := negb (py_eq a b).

(** [a - b]: defined on integers and booleans, a [TypeError] elsewhere. *)
Definition py_sub (a b : json) : res Z :=
  match a, b with
  | JInt m, JInt n => Ok (m - n)
  | JInt m, JBool y => Ok (m - int_of_bool y)
  | JBool x, JInt n => Ok (int_of_bool x - n)
  | JBool x, JBool y => Ok (int_of_bool x - int_of_bool y)
  | _, _ => Raise TypeError
  end.

Fixpoint chars (s : string) : list json :=
  match s with
  | EmptyString => []
  | String c s' => JStr (String c EmptyString) :: chars s'
  end.

(** [for x in v]: a list yields its elements, a dict its keys, a string
    its characters; anything else is not iterable. *)
Definition py_iter (v : json) : res (list json) :=
  match v with
  | JList l => Ok l
  | JDict d => Ok (map (fun kv => JStr (fst kv)) d)
  | JStr s => Ok (chars s)
  | _ => Raise TypeError
  end.

Fixpoint distinct (keys : list string) : bool :=
  match keys with
  | [] => true
  | k :: keys' => negb (existsb (String.eqb k) keys') && distinct keys'
  end.

(** The values a JSON parser returns: the keys of a dict are distinct. *)
Fixpoint wf_json (v : json) : bool :=
  match v with
  | JList l => forallb wf_json l
  | JDict d => distinct (map fst d) && forallb (fun kv => wf_json (snd kv)) d
  | _ => true
  end.

(** ** Calendar dates: [strptime] and [strftime]

    [strptime] is followed through the regular expressions CPython builds
    for the directives, on the ASCII digits; the other decimal digits of
    Unicode, which these expressions accept as well, are not modelled. *)

Record civil : Type := mkcivil { year : Z; month : Z; day : Z }.

Definition digit (c : ascii) : option Z :=
  let n := Z.of_N (N_of_ascii c) in
  if (48 <=? n) && (n <=? 57) then Some (n - 48) else None.

Definition is_space (c : ascii) : bool := Ascii.eqb c " "%char.

(** [%Y]: exactly four digits. *)
Definition parse_Y (s : string) : option Z :=
  match s with
  | String a (String b (String c (String d EmptyString))) =>
      match digit a, digit b, digit c, digit d with
      | Some a, Some b, Some c, Some d => Some (1000 * a + 100 * b + 10 * c + d)
      | _, _, _, _ => None
      end
  | _ => None
  end.

(** [%m]: [1[0-2]|0[1-9]|[1-9]]. *)
Definition parse_m (s : string) : option Z :=
  match s with
  | String a EmptyString =>
      match digit a with
      | Some a => if 1 <=? a then Some a else None
      | None => None
      end
  | String a (String b EmptyString) =>
      match digit a, digit b with
      | Some a, Some b =>
          if (a =? 1) && (b <=? 2) then Some (10 + b)
          else if (a =? 0) && (1 <=? b) then Some b
          else None
      | _, _ => None
      end
  | _ => None
  end.

(** [%d]: [3[0-1]|[1-2]\d|0[1-9]|[1-9]| [1-9]]. *)
Definition parse_d (s : string) : option Z :=
  match s with
  | String a EmptyString =>
      match digit a with
      | Some a => if 1 <=? a then Some a else None
      | None => None
      end
  | String a (String b EmptyString) =>
      match digit b with
      | Some b =>
          if is_space a then (if 1 <=? b then Some b else None)
          else
            match digit a with
            | Some a =>
                if (a =? 3) && (b <=? 1) then Some (30 + b)
                else if (1 <=? a) && (a <=? 2) then Some (10 * a + b)
                else if (a =? 0) && (1 <=? b) then Some b
                else None
            | None => None
            end
      | None => None
      end
  | _ => None
  end.

(** The text before the first [sep] and the text after it. *)
Fixpoint cut (sep : ascii) (s : string) : option (string * string) :=
  match s with
  | EmptyString => None
  | String c s' =>
      if Ascii.eqb c sep then Some (EmptyString, s')
      else match cut sep s' with
           | Some (a, b) => Some (String c a, b)
           | None => None
           end
  end.

(** [s.split(sep)[0]] *)
Fixpoint before (sep : ascii) (s : string) : string :=
  match s with
  | EmptyString => EmptyString
  | String c s' => if Ascii.eqb c sep then EmptyString else String c (before sep s')
  end.

Definition is_leap (y : Z) : bool :=
  (y mod 4 =? 0) && (negb (y mod 100 =? 0) || (y mod 400 =? 0)).

Definition days_in_month (y m : Z) : Z :=
  if m =? 2 then (if is_leap y then 29 else 28)
  else if (m =? 4) || (m =? 6) || (m =? 9) || (m =? 11) then 30
  else 31.

Definition valid_date (d : civil) : bool :=
  (1 <=? year d) && (year d <=? 9999) &&
  (1 <=? month d) && (month d <=? 12) &&
  (1 <=? day d) && (day d <=? days_in_month (year d) (month d)).

Definition checked_date (y m d : Z) : option civil :=
  let dt := mkcivil y m d in
  if valid_date dt then Some dt else None.

(** [datetime.strptime(s, '%Y-%m-%d')]; [None] is [ValueError]. *)
Definition strptime_Ymd (s : string) : option civil :=
  match cut "-"%char s with
  | Some (ys, rest) =>
      match cut "-"%char rest with
      | Some (ms, ds) =>
          match parse_Y ys, parse_m ms, parse_d ds with
          | Some y, Some m, Some d => checked_date y m d
          | _, _, _ => None
          end
      | None => None
      end
  | None => None
  end.

(** [datetime.strptime(s, '%d.%m.%Y')]; [None] is [ValueError]. *)
Definition strptime_dmY (s : string) : option civil :=
  match cut "."%char s with
  | Some (ds, rest) =>
      match cut "."%char rest with
      | Some (ms, ys) =>
          match parse_Y ys, parse_m ms, parse_d ds with
          | Some y, Some m, Some d => checked_date y m d
          | _, _, _ => None
          end
      | None => None
      end
  | None => None
  end.

Definition digit_char (n : Z) : ascii := ascii_of_N (Z.to_N (48 + n mod 10)).

Definition pad2 (n : Z) : string :=
  String (digit_char (n / 10)) (String (digit_char n) EmptyString).

Definition pad4 (n : Z) : string :=
  String (digit_char (n / 1000)) (String (digit_char (n / 100))
    (String (digit_char (n / 10)) (String (digit_char n) EmptyString))).

(** Chronological order of two dates, as [datetime] compares them. *)
Definition date_ltb (a b : civil) : bool :=
  (year a <? year b) ||
  ((year a =? year b) &&
   ((month a <? month b) || ((month a =? month b) && (day a <? day b)))).

Definition date_leb (a b : civil) : bool := negb (date_ltb b a).

Definition date_eqb (a b : civil) : bool :=
  (year a =? year b) && (month a =? month b) && (day a =? day b).

(** ** Timestamps: [datetime] values *)

(** A [datetime]: the wall-clock reading in microseconds counted from
    0001-01-01T00:00:00, and the UTC offset (in microseconds) of an aware
    value, [None] for a naive one. *)
Record datetime : Type := mkdatetime { wall : Z; utcoffset : option Z }.

Definition us_per_second : Z := 1000000.
Definition us_per_day : Z := 86400 * us_per_second.

(** [datetime.max] is 9999-12-31T23:59:59.999999, day 3652059. *)
Definition max_wall : Z := 3652059 * us_per_day.

Definition in_range (w : Z) : bool := (0 <=? w) && (w <? max_wall).

(** [a > b]: two naive values compare by their readings, two aware ones
    by their instants, and a naive with an aware one is a [TypeError]. *)
Definition dt_gt (a b : datetime) : res bool :=
  match utcoffset a, utcoffset b with
  | None, None => Ok (wall b <? wall a)
  | Some oa, Some ob => Ok (wall b - ob <? wall a - oa)
  | _, _ => Raise TypeError
  end.

(** [s.replace('Z', '+00:00')] *)
Fixpoint replace_Z (s : string) : string :=
  match s with
  | EmptyString => EmptyString
  | String c s' =>
      if Ascii.eqb c "Z"%char then "+00:00" +:+ replace_Z s'
      else String c (replace_Z s')
  end.

(** The calendar date of day number [n], day 0 being 0001-01-01. *)
Definition civil_of_days (n : Z) : civil :=
  let z := n + 306 in
  let era := z / 146097 in
  let doe := z mod 146097 in
  let yoe := (doe - doe / 1460 + doe / 36524 - doe / 146096) / 365 in
  let doy := doe - (365 * yoe + yoe / 4 - yoe / 100) in
  let mp := (5 * doy + 2) / 153 in
  let d := doy - (153 * mp + 2) / 5 + 1 in
  let m := if mp <? 10 then mp + 3 else mp - 9 in
  mkcivil (yoe + era * 400 + (if m <=? 2 then 1 else 0)) m d.

(** ** Settings, snapshots, history and results *)

Record Settings : Type := mkSettings {
  source_country : string;
  mission_country : string;
  check_interval : nat;
  send_all_updates : bool
}.

(** [appointment_info]: the snapshot of one record.  The key
    [people_looking_change] is present or absent. *)
Record info : Type := mkinfo {
  date : string;
  center : json;
  visa_category : json;
  visa_subcategory : json;
  people_looking : json;
  link : json;
  people_looking_change : option Z
}.

(** [scan_history]: [last_scan] is [None] when the key is absent. *)
Record history : Type := mkhistory {
  last_scan : option json;
  history_appointments : gmap string info
}.

(** The dict emitted with [update_signal]. *)
Record PollResult : Type := mkPollResult {
  current_time : string;
  last_check : json;
  api_last_checked : option string;
  appointments : list info;
  error : option string
}.

Inductive signal : Type :=
| update_signal (result : PollResult)
| error_signal (msg : string).

(** What one call of [check_appointments] leaves behind: the shared
    [scan_history], the signal it emitted, and the document handed to
    [json.dump] when it got that far. *)
Record outcome : Type := mkoutcome {
  history_after : history;
  emitted : signal;
  dumped : option history
}.

(** The literals of the source, byte for byte. *)
Definition first_check_label : string := "Ä°lk Kontrol".
Definition unspecified_label : string := "BelirtilmemiÅŸ".
Definition no_appointments_footer : string := "âŒ Åu anda uygun randevu bulunmamaktadÄ±r.".
Definition report_title : string := "ğŸ”„ Randevu Kontrol Raporu".
Definition route_prefix : string := "ğŸŒ ".
Definition route_arrow : string := " â¡ï¸ ".
Definition check_time_label : string := "â° Kontrol ZamanÄ±: ".
Definition last_message_label : string := "ğŸ“¤ Son Mesaj: ".
Definition api_update_label : string := "ğŸ”„ API Son GÃ¼ncelleme: ".
Definition available_label : string := "ğŸ“… Mevcut Randevular (".
Definition waiting_label : string := "ğŸ‘¥ Bekleyen KiÅŸi: ".
Definition change_suffix : string := " deÄŸiÅŸim)".
Definition date_label : string := "ğŸ“… Tarih: ".
Definition center_label : string := "ğŸ¢ Merkez: ".
Definition category_label : string := "ğŸ“‹ Vize Tipi: ".
Definition subcategory_label : string := "ğŸ“ Alt Kategori: ".
Definition link_open : string := "ğŸ”— <a href='".
Definition link_close : string := "'>Randevu Linki</a>".
Definition error_label : string := "âš ï¸ Hata: ".

Definition nl : string := String (ascii_of_nat 10) EmptyString.

Definition required_fields : list string :=
  ["source_country"; "mission_country"; "appointment_date"].

(** [d[k]] *)
Definition dict_index (d : list (string * json)) (k : string) : res json :=
  match dict_get k d with
  | Some v => Ok v
  | None => Raise KeyError
  end.

(** [except (ValueError, AttributeError): continue], the loop going on
    from [state]. *)
Definition except_ValueError_AttributeError {A : Type}
    (body : res A) (state : A) : res A :=
  match body with
  | Raise ValueError => Ok state
  | Raise AttributeError => Ok state
  | r => r
  end.

Definition is_list (v : json) : bool :=
  match v with JList _ => true | _ => false end.

Definition is_error (s : signal) : bool :=
  match s with error_signal _ => true | update_signal _ => false end.

(** The parts of the Python runtime and of the platform that stay
    abstract. *)
Class Runtime : Type := {
  (** [repr] of a list or of a dict *)
  py_repr : json -> string;
  (** [datetime.fromisoformat]; [None] is [ValueError] *)
  fromisoformat : string -> option datetime;
  (** the UTC offset the system time zone gives a naive reading *)
  local_utcoffset : Z -> res Z;
  (** whether the C library pads [%Y] to four digits (glibc does not) *)
  zero_pad_year : bool;
  (** [str(e)] *)
  exn_str : exn -> string
}.

Section Tracker.

Context `{Runtime}.

Variable settings : Settings.

(** Formatting inside an f-string. *)
Definition py_format (v : json) : string :=
  match v with
  | JNull => "None"
  | JBool true => "True"
  | JBool false => "False"
  | JInt n => pretty n
  | JStr s => s
  | _ => py_repr v
  end.

Definition format_Y (y : Z) : string :=
  if zero_pad_year then pad4 y else pretty y.

(** [d.strftime('%d.%m.%Y')] *)
Definition strftime_dmY (d : civil) : string :=
  pad2 (day d) +:+ "." +:+ pad2 (month d) +:+ "." +:+ format_Y (year d).

(** [d.strftime('%Y-%m-%d')] *)
Definition strftime_Ymd (d : civil) : string :=
  format_Y (year d) +:+ "-" +:+ pad2 (month d) +:+ "-" +:+ pad2 (day d).

(** [t.strftime('%d.%m.%Y - %H:%M:%S')] *)
Definition strftime_dmY_HMS (t : datetime) : string :=
  let secs := (wall t mod us_per_day) / us_per_second in
  strftime_dmY (civil_of_days (wall t / us_per_day)) +:+ " - " +:+
  pad2 (secs / 3600) +:+ ":" +:+ pad2 (secs / 60 mod 60) +:+ ":" +:+ pad2 (secs mod 60).

(** [tz.tzoffset(None, 3*60*60)] *)
Definition turkey_tz : Z := 3 * 60 * 60 * us_per_second.

(** [t.astimezone(tz)] for a fixed-offset [tz]: a naive [t] is read in
    the system time zone; leaving the range of [datetime] on the way
    through UTC is an [OverflowError]. *)
Definition astimezone (tz : Z) (t : datetime) : res datetime :=
  myoffset ← match utcoffset t with
              | Some o => Ok o
              | None => local_utcoffset (wall t)
              end;
  let utc := wall t - myoffset in
  if in_range utc then
    if in_range (utc + tz) then Ok (mkdatetime (utc + tz) (Some tz))
    else Raise OverflowError
  else Raise OverflowError.

(** *** Lines 73-82: the scan for the latest [last_checked] *)

Definition parse_last_checked (v : json) : res datetime :=
  match v with
  | JStr s =>
      match fromisoformat (replace_Z s) with
      | Some t => Ok t
      | None => Raise ValueError
      end
  | _ => Raise AttributeError
  end.

Definition scan_record (latest_update : option datetime) (appointment : json)
    : res (option datetime) :=
  match appointment with
  | JDict d =>
      match dict_get "last_checked" d with
      | Some v =>
          except_ValueError_AttributeError
            (api_time ← parse_last_checked v;
             newer ← match latest_update with
                      | None => Ok true
                      | Some l => dt_gt api_time l
                      end;
             Ok (if newer : bool then Some api_time else latest_update))
            latest_update
      | None => Ok latest_update
      end
  | _ => Ok latest_update
  end.

Fixpoint scan_last_checked (latest_update : option datetime) (data : list json)
    : res (option datetime) :=
  match data with
  | [] => Ok latest_update
  | appointment :: rest =>
      latest ← scan_record latest_update appointment;
      scan_last_checked latest rest
  end.

(** Lines 69-87. *)
Definition compute_api_last_checked (data : json) : res (option string) :=
  match data with
  | JList l =>
      if py_truthy data then
        latest_update ← scan_last_checked None l;
        match latest_update with
        | Some t =>
            api_time_turkey ← astimezone turkey_tz t;
            Ok (Some (strftime_dmY_HMS api_time_turkey))
        | None => Ok None
        end
      else Ok None
  | _ => Ok None
  end.

(** *** Lines 97-132: filtering, normalising and the update of the store *)

Definition parse_appointment_date (v : json) : res civil :=
  match v with
  | JStr s =>
      match strptime_Ymd (before "T"%char s) with
      | Some d => Ok d
      | None => Raise ValueError
      end
  | _ => Raise AttributeError
  end.

Definition appointment_key (src mis : json) (apt_date : civil) : string :=
  py_format src +:+ "_" +:+ py_format mis +:+ "_" +:+ strftime_Ymd apt_date.

(** Lines 109-116. *)
Definition appointment_info (d : list (string * json)) (apt_date : civil) : info :=
  {| date := strftime_dmY apt_date;
     center := py_get d "center_name" (JStr unspecified_label);
     visa_category := py_get d "visa_category" (JStr unspecified_label);
     visa_subcategory := py_get d "visa_subcategory" (JStr unspecified_label);
     people_looking := py_get d "people_looking" (JInt 0);
     link := py_get d "book_now_link" (JStr "#");
     people_looking_change := None |}.

Definition set_change (i : info) (c : Z) : info :=
  {| date := date i; center := center i; visa_category := visa_category i;
     visa_subcategory := visa_subcategory i; people_looking := people_looking i;
     link := link i; people_looking_change := Some c |}.

(** Lines 120-124: the comparison with the stored snapshot. *)
Definition annotate (store : gmap string info) (key : string) (i : info) : res info :=
  match store !! key with
  | Some prev_info =>
      if py_ne (people_looking prev_info) (people_looking i) then
        change ← py_sub (people_looking i) (people_looking prev_info);
        Ok (set_change i change)
      else Ok i
  | None => Ok i
  end.

Definition cycle_state : Type := gmap string info * list info.

(** Lines 105-128, the body of the inner [try]. *)
Definition try_body (st : cycle_state) (d : list (string * json)) : res cycle_state :=
  date_field ← dict_index d "appointment_date";
  apt_date ← parse_appointment_date date_field;
  src ← dict_index d "source_country";
  mis ← dict_index d "mission_country";
  let key := appointment_key src mis apt_date in
  i ← annotate st.1 key (appointment_info d apt_date);
  Ok (<[key := i]> st.1, (st.2 ++ [i])%list).

(** One turn of the loop of line 97. *)
Definition process_appointment (st : cycle_state) (appointment : json)
    : res cycle_state :=
  match appointment with
  | JDict d =>
      if negb (py_truthy appointment) then Ok st
      else if negb (forallb (fun field => py_truthy (py_get d field JNull))
                            required_fields) then Ok st
      else
        src ← dict_index d "source_country";
        mis ← dict_index d "mission_country";
        if py_eq src (JStr (source_country settings)) &&
           py_eq mis (JStr (mission_country settings))
        then except_ValueError_AttributeError (try_body st d) st
        else Ok st
  | _ => Ok st
  end.

(** The loop; an exception leaves the store as the records before the
    failing one made it. *)
Fixpoint process_all (st : cycle_state) (data : list json)
    : cycle_state * option exn :=
  match data with
  | [] => (st, None)
  | appointment :: rest =>
      match process_appointment st appointment with
      | Ok st' => process_all st' rest
      | Raise e => (st, Some e)
      end
  end.

(** *** [check_appointments] *)

Definition failed (scan_history : history) (e : exn) : outcome :=
  {| history_after := scan_history;
     emitted := error_signal (exn_str e);
     dumped := None |}.

Definition check_appointments (scan_history : history) (now : string)
    (response : res json) : outcome :=
  match response with
  | Raise e => failed scan_history e
  | Ok data =>
      let last_check :=
        match last_scan scan_history with
        | Some v => v
        | None => JStr first_check_label
        end in
      match compute_api_last_checked data with
      | Raise e => failed scan_history e
      | Ok api_last_checked =>
          match py_iter data with
          | Raise e => failed scan_history e
          | Ok records =>
              match process_all (history_appointments scan_history, []) records with
              | (st, Some e) =>
                  failed {| last_scan := last_scan scan_history;
                            history_appointments := st.1 |} e
              | (st, None) =>
                  let scan_history' :=
                    {| last_scan := Some (JStr now);
                       history_appointments := st.1 |} in
                  {| history_after := scan_history';
                     emitted := update_signal
                       {| current_time := now;
                          last_check := last_check;
                          api_last_checked := api_last_checked;
                          appointments := st.2;
                          error := None |};
                     dumped := Some scan_history' |}
              end
          end
      end
  end.

(** *** [VisaTracker.handle_update] and [handle_error] *)

(** The key of the sort of line 574. *)
Definition sort_key (x : info) : res civil :=
  match strptime_dmY (date x) with
  | Some d => Ok d
  | None => Raise ValueError
  end.

Fixpoint with_keys (l : list info) : res (list (civil * info)) :=
  match l with
  | [] => Ok []
  | x :: l' =>
      k ← sort_key x;
      rest ← with_keys l';
      Ok ((k, x) :: rest)
  end.

(** [x] goes in front of the first element that is not earlier. *)
Fixpoint insert_by_key (x : civil * info) (l : list (civil * info))
    : list (civil * info) :=
  match l with
  | [] => [x]
  | y :: l' =>
      if date_ltb y.1 x.1 then y :: insert_by_key x l'
      else x :: y :: l'
  end.

Fixpoint sort_by_key (l : list (civil * info)) : list (civil * info) :=
  match l with
  | [] => []
  | x :: l' => insert_by_key x (sort_by_key l')
  end.

(** [l.sort(key=...)]: the keys are computed first, then the list is
    put in ascending order of key, equal keys staying in their order. *)
Definition sort_appointments (l : list info) : res (list info) :=
  keyed ← with_keys l;
  Ok (map snd (sort_by_key keyed)).

(** Lines 578-581. *)
Definition people_info (apt : info) : string :=
  waiting_label +:+ py_format (people_looking apt) +:+
  match people_looking_change apt with
  | Some change =>
      " (" +:+ (if 0 <? change then "+" else "") +:+ pretty change +:+ change_suffix
  | None => ""
  end.

(** Lines 583-590. *)
Definition appointment_block (apt : info) : string :=
  date_label +:+ date apt +:+ nl +:+
  center_label +:+ py_format (center apt) +:+ nl +:+
  category_label +:+ py_format (visa_category apt) +:+ nl +:+
  subcategory_label +:+ py_format (visa_subcategory apt) +:+ nl +:+
  people_info apt +:+ nl +:+
  link_open +:+ py_format (link apt) +:+ link_close +:+ nl +:+ nl.

Fixpoint appointment_blocks (l : list info) : string :=
  match l with
  | [] => ""
  | apt :: l' => appointment_block apt +:+ appointment_blocks l'
  end.

(** Lines 560-570. *)
Definition report_header (result : PollResult) : string :=
  report_title +:+ nl +:+
  route_prefix +:+ source_country settings +:+ route_arrow +:+
    mission_country settings +:+ nl +:+
  check_time_label +:+ current_time result +:+ nl +:+
  last_message_label +:+ py_format (last_check result) +:+ nl +:+
  match api_last_checked result with
  | Some t =>
      if String.eqb t "" then "" else api_update_label +:+ t +:+ nl
  | None => ""
  end +:+ nl.

(** [handle_error]: the texts it posts to the messaging sink. *)
Definition handle_error (error_msg : string) : list string :=
  [error_label +:+ error_msg].

(** [handle_update]: the result as the in-place sort leaves it, and the
    texts posted to the messaging sink, in the order of the calls of
    [send_telegram_message]. *)
Definition handle_update (result : PollResult) : PollResult * list string :=
  let status_message := report_header result in
  match appointments result with
  | _ :: _ =>
      match sort_appointments (appointments result) with
      | Ok sorted =>
          ({| current_time := current_time result;
              last_check := last_check result;
              api_last_checked := api_last_checked result;
              appointments := sorted;
              error := error result |},
           [status_message +:+ available_label +:+
            pretty (Z.of_nat (length sorted)) +:+ "):" +:+ nl +:+ nl +:+
            appointment_blocks sorted])
      | Raise e => (result, handle_error (exn_str e))
      end
  | [] =>
      (result,
       if send_all_updates settings
       then [status_message +:+ no_appointments_footer]
       else [])
  end.

(** *** [AppointmentCheckerThread.run] *)

(** What the worker does between two readings of the stop flag: one call
    of [check_appointments], or one [msleep(1000)].  Each step carries the
    number of the reading that let it begin. *)
Inductive step : Type :=
| cycle_step (reading : nat)
| sleep_step (reading : nat).

Definition step_reading (s : step) : nat :=
  match s with
  | cycle_step n => n
  | sleep_step n => n
  end.

(** Lines 47-50.  [stopped n] is what the [n]-th reading of the flag
    returns; the loop gives the number of the next reading and the sleeps
    it made. *)
Fixpoint sleep_loop (stopped : nat -> bool) (reading seconds : nat)
    : nat * list step :=
  match seconds with
  | O => (reading, [])
  | S seconds' =>
      if stopped reading then (S reading, [])
      else
        let '(next, sleeps) := sleep_loop stopped (S reading) seconds' in
        (next, sleep_step reading :: sleeps)
  end.

(** Lines 43-50, [fuel] bounding the turns of the [while].  The two
    flags [stop] sets are read as one: [is_running] is cleared after the
    event is set, so the condition of the [while] fails exactly when the
    event reads set.  [check_appointments] catches every exception itself
    and [msleep] raises none, so the [except] of line 51 is not entered. *)
Fixpoint run (fuel : nat) (stopped : nat -> bool) (reading : nat)
    : option (list step) :=
  match fuel with
  | O => None
  | S fuel' =>
      if stopped reading then Some []
      else
        let '(next, sleeps) :=
          sleep_loop stopped (S reading) (check_interval settings) in
        match run fuel' stopped next with
        | Some rest => Some (cycle_step reading :: sleeps ++ rest)%list
        | None => None
        end
  end.

End Tracker.

(** ** Notions used to state the properties *)

(** The key and the fresh snapshot a record yields, when it passes the
    checks of lines 98-104 and its date parses. *)
Definition normalise `{Runtime} (settings : Settings) (appointment : json)
    : option (string * info) :=
  match appointment with
  | JDict d =>
      if forallb (fun field => py_truthy (py_get d field JNull)) required_fields
         && py_eq (py_get d "source_country" JNull) (JStr (source_country settings))
         && py_eq (py_get d "mission_country" JNull) (JStr (mission_country settings))
      then
        match parse_appointment_date (py_get d "appointment_date" JNull) with
        | Ok apt_date =>
            Some (appointment_key (py_get d "source_country" JNull)
                                  (py_get d "mission_country" JNull) apt_date,
                  appointment_info d apt_date)
        | Raise _ => None
        end
      else None
  | _ => None
  end.

(** The snapshot without its report-only annotation. *)
Definition clear_change (i : info) : info :=
  {| date := date i; center := center i; visa_category := visa_category i;
     visa_subcategory := visa_subcategory i; people_looking := people_looking i;
     link := link i; people_looking_change := None |}.

(** The timestamp a record contributes to the scan of lines 73-82. *)
Definition last_checked_of `{Runtime} (appointment : json) : option datetime :=
  match appointment with
  | JDict d =>
      match dict_get "last_checked" d with
      | Some v =>
          match parse_last_checked v with
          | Ok t => Some t
          | Raise _ => None
          end
      | None => None
      end
  | _ => None
  end.

Definition parsed_times `{Runtime} (data : list json) : list datetime :=
  omap last_checked_of data.

(** The scan of lines 73-82 run on the timestamps alone. *)
Fixpoint scan_times (latest_update : option datetime) (times : list datetime)
    : res (option datetime) :=
  match times with
  | [] => Ok latest_update
  | api_time :: rest =>
      newer ← match latest_update with
               | None => Ok true
               | Some l => dt_gt api_time l
               end;
      scan_times (if newer : bool then Some api_time else latest_update) rest
  end.

Fixpoint ascending (l : list civil) : bool :=
  match l with
  | a :: l' =>
      match l' with
      | b :: _ => date_leb a b && ascending l'
      | [] => true
      end
  | [] => true
  end.

(** The list is in ascending order of the dates its snapshots show. *)
Definition ordered_by_date `{Runtime} (l : list info) : bool :=
  match with_keys l with
  | Ok keyed => ascending (map fst keyed)
  | Raise _ => false
  end.



Definition signal_appointments (s : signal) : list info :=
  match s with
  | update_signal result => appointments result
  | error_signal _ => []
  end.

(** ** A concrete runtime and sample data *)

Definition sample_fromisoformat (s : string) : option datetime :=
  if String.eqb s "2024-05-01T10:00:00+00:00"
  then Some (mkdatetime (739006 * us_per_day + 36000 * us_per_second) (Some 0))
  else if String.eqb s "2024-05-01T12:30:00+03:00"
  then Some (mkdatetime (739006 * us_per_day + 45000 * us_per_second)
                        (Some (10800 * us_per_second)))
  else if String.eqb s "2024-05-01T10:00:00"
  then Some (mkdatetime (739006 * us_per_day + 36000 * us_per_second) None)
  else None.

Definition sample_exn_str (e : exn) : string :=
  match e with
  | TypeError => "TypeError"
  | ValueError => "ValueError"
  | AttributeError => "AttributeError"
  | OverflowError => "OverflowError"
  | KeyError => "KeyError"
  | RequestException => "RequestException"
  end.

Definition sample_runtime : Runtime :=
  {| py_repr := fun _ => "[...]";
     fromisoformat := sample_fromisoformat;
     local_utcoffset := fun _ => Ok 0;
     zero_pad_year := false;
     exn_str := sample_exn_str |}.

Definition sample_settings : Settings :=
  {| source_country := "Turkey"; mission_country := "Germany";
     check_interval := 300; send_all_updates := true |}.

Definition quiet_settings : Settings :=
  {| source_country := "Turkey"; mission_country := "Germany";
     check_interval := 300; send_all_updates := false |}.

Definition empty_history : history :=
  {| last_scan := Some JNull; history_appointments := ∅ |}.

Definition sample_fields (centre day : string) (looking : Z)
    : list (string * json) :=
  [("source_country", JStr "Turkey"); ("mission_country", JStr "Germany");
   ("appointment_date", JStr day); ("center_name", JStr centre);
   ("people_looking", JInt looking)].

Definition sample_record (centre day : string) (looking : Z) : json :=
  JDict (sample_fields centre day looking).

(** The snapshot of such a record. *)
Definition sample_info (centre day : string) (looking : Z) (change : option Z)
    : info :=
  {| date := day; center := JStr centre;
     visa_category := JStr unspecified_label;
     visa_subcategory := JStr unspecified_label;
     people_looking := JInt looking; link := JStr "#";
     people_looking_change := change |}.

Definition other_route_record : json :=
  JDict [("source_country", JStr "Turkey"); ("mission_country", JStr "France");
         ("appointment_date", JStr "2024-07-01");
         ("last_checked", JStr "2024-05-01T10:00:00Z")].

(** The result a signal carries, the error standing in its error slot. *)
Definition signal_result (s : signal) : PollResult :=
  match s with
  | update_signal result => result
  | error_signal msg =>
      {| current_time := ""; last_check := JNull; api_last_checked := None;
         appointments := []; error := Some msg |}
  end.

(** Two centres on the same day, with different counts. *)
Definition two_centres : list json :=
  [sample_record "Ankara" "2024-05-01" 5; sample_record "Istanbul" "2024-05-01" 7].


(** A later day listed before an earlier one. *)
Definition june_then_may : list json :=
  [sample_record "Ankara" "2024-06-01" 5; sample_record "Istanbul" "2024-05-01" 7].

(** A record without appointment_date, and one whose date is empty. *)
Definition no_date_fields : list (string * json) :=
  [("source_country", JStr "Turkey"); ("mission_country", JStr "Germany");
   ("people_looking", JInt 3)].

Definition empty_date_fields : list (string * json) :=
  [("source_country", JStr "Turkey"); ("mission_country", JStr "Germany");
   ("appointment_date", JStr ""); ("people_looking", JInt 3)].

(** The body of an error reply of the upstream service. *)
Definition not_found_body : json := JDict [("detail", JStr "Not found.")].


Definition sample_cycle (h : history) (now : string) (data : json) : outcome :=
  check_appointments (H := sample_runtime) sample_settings h now (Ok data).

(** ** The files read at start-up and the settings form

    A file is given by what [open] and [json.load] make of it: [None]
    when it does not exist ([FileNotFoundError]), a failure when it cannot
    be read or parsed, or the document it holds.  The settings file and
    the history file are read as the documents [json.dump] wrote: an
    object for the settings, a [history]. *)

(** [load_scan_history], lines 201-210: the history, and the document
    [save_scan_history] wrote when the file was missing. *)
Definition load_scan_history (file : option (res history))
    : res (history * option history) :=
  match file with
  | Some (Ok scan_history) => Ok (scan_history, None)
  | Some (Raise e) => Raise e
  | None =>
      let scan_history := {| last_scan := Some JNull; history_appointments := ∅ |} in
      Ok (scan_history, Some scan_history)
  end.

(** Lines 163-175. *)
Definition default_settings : list (string * json) :=
  [("telegram_token", JStr ""); ("telegram_chat_id", JStr "");
   ("source_country", JStr ""); ("mission_country", JStr "");
   ("check_interval", JInt 300); ("scan_days", JInt 1);
   ("interval_unit", JStr "seconds"); ("initial_appointment_count", JInt 5);
   ("send_all_updates", JBool true); ("last_check", JNull);
   ("last_appointments", JDict [])].

(** [load_settings], lines 177-184: the settings dict, and the document
    [save_settings] wrote when the file was missing.  [update] lets the
    saved values replace the defaults. *)
Definition load_settings (file : option (res (list (string * json))))
    : res (gmap string json * option (gmap string json)) :=
  match file with
  | Some (Ok saved_settings) =>
      Ok (list_to_map saved_settings ∪ list_to_map default_settings, None)
  | Some (Raise e) => Raise e
  | None => Ok (list_to_map default_settings, Some (list_to_map default_settings))
  end.

(** The keys the tracker subscripts in [self.settings]. *)
Definition keys_read : list string :=
  ["telegram_token"; "telegram_chat_id"; "source_country"; "mission_country";
   "check_interval"; "scan_days"; "interval_unit"; "initial_appointment_count";
   "send_all_updates"].

(** [item[key]] for a string [key]: only a dict can be subscripted so. *)
Definition py_subscript (item : json) (key : string) : res json :=
  match item with
  | JDict d => dict_index d key
  | _ => Raise TypeError
  end.

(** [[item[key] for item in items]] *)
Fixpoint subscript_all (key : string) (items : list json) : res (list json) :=
  match items with
  | [] => Ok []
  | item :: rest =>
      v ← py_subscript item key;
      vs ← subscript_all key rest;
      Ok (v :: vs)
  end.

(** The members of a set that is sorted together with the string
    ['Poland']: a list or a dict cannot enter a set, and a value that is
    not a string cannot be compared with a string. *)
Fixpoint country_names (values : list json) : res (list string) :=
  match values with
  | [] => Ok []
  | JStr name :: rest =>
      names ← country_names rest;
      Ok (name :: names)
  | _ :: _ => Raise TypeError
  end.

Fixpoint insert_country (c : string) (l : list string) : list string :=
  match l with
  | [] => [c]
  | x :: l' =>
      match String.compare c x with
      | Lt => c :: x :: l'
      | Eq => x :: l'
      | Gt => x :: insert_country c l'
      end
  end.

(** [sorted(list(set(names)))] *)
Definition sorted_set (names : list string) : list string :=
  foldr insert_country [] names.

(** Lines 190-191. *)
Definition countries_of (data : json) : res (list string) :=
  items ← py_iter data;
  sources ← subscript_all "source_country" items;
  missions ← subscript_all "mission_country" items;
  country_names (sources ++ missions)%list.

(** Lines 186-195: [self.countries]; the bare [except] answers every
    failure with the list that holds Poland alone. *)
Definition load_countries (file : option (res json)) : list string :=
  match file with
  | Some (Ok data) =>
      match countries_of data with
      | Ok names => sorted_set ("Poland" :: names)
      | Raise _ => ["Poland"]
      end
  | _ => ["Poland"]
  end.

(** [QSpinBox.setValue] on a box of range [lo..hi]. *)
Definition spin_value (lo hi v : Z) : Z := Z.max lo (Z.min hi v).

(** Lines 331-341 of [initUI]: the value of the interval box and the
    text of the unit box, from the stored interval and unit. *)
Definition interval_shown (check_interval : Z) (interval_unit : string)
    : Z * string :=
  if String.eqb interval_unit "minutes"
  then (spin_value 1 3600 (check_interval / 60), "Dakika")
  else (spin_value 1 3600 check_interval, "Saniye").

(** Lines 488-494 of [save_current_settings]: the stored interval, in
    seconds, and the stored unit. *)
Definition interval_saved (interval : Z) (unit_text : string) : Z * string :=
  if String.eqb unit_text "Dakika" then (interval * 60, "minutes")
  else (interval, "seconds").

(** Lines 504-505: the slot each signal of the worker is connected to,
    with the texts it posts. *)
Definition dispatch `{Runtime} (settings : Settings) (s : signal) : list string :=
  match s with
  | update_signal result => (handle_update settings result).2
  | error_signal msg => handle_error msg
  end.

(** The snapshot shows the date [k]. *)
Definition shows_date (k : civil) (i : info) : bool :=
  match strptime_dmY (date i) with
  | Some d => date_eqb d k
  | None => false
  end.

Definition aware (t : datetime) : bool :=
  match utcoffset t with
  | Some _ => true
  | None => false
  end.

(** The readings of the flag a worker that is not stopped makes during
    the sleeps of one interval. *)
Definition sleeps_from (reading seconds : nat) : list step :=
  map sleep_step (seq reading seconds).


(** The dict with [v] under [k], the other items as they are. *)
Fixpoint dict_set (k : string) (v : json) (d : list (string * json))
    : list (string * json) :=
  match d with
  | [] => [(k, v)]
  | (k', v') :: d' =>
      if String.eqb k' k then (k, v) :: d' else (k', v') :: dict_set k v d'
  end.

(** ** More sample data *)

(** The history after a first cycle that saw Ankara on 2024-05-01 with
    12 people looking. *)
Definition seen_history : history :=
  history_after
    (sample_cycle empty_history "01.05.2024 - 09:00:00"
       (JList [sample_record "Ankara" "2024-05-01" 12])).

(** A record for 2024-05-01 whose count is a text. *)
Definition text_count_record : json :=
  JDict [("source_country", JStr "Turkey"); ("mission_country", JStr "Germany");
         ("appointment_date", JStr "2024-05-01"); ("people_looking", JStr "many")].

(** Two timestamps, one with an offset and one without. *)
Definition mixed_timestamps : list json :=
  [JDict [("last_checked", JStr "2024-05-01T10:00:00Z")];
   JDict [("last_checked", JStr "2024-05-01T10:00:00")]].

(** A stop flag that is set from the [r]-th reading on. *)
Definition stopped_from (r : nat) : nat -> bool := fun n => (r <=? n)%nat.

(** Settings with an interval of two seconds. *)
Definition quick_settings : Settings :=
  {| source_country := "Turkey"; mission_country := "Germany";
     check_interval := 2; send_all_updates := true |}.

(** A settings file of an older version, with a key of its own. *)
Definition old_settings_file : list (string * json) :=
  [("source_country", JStr "Turkey"); ("check_interval", JInt 60);
   ("theme", JStr "dark")].

Definition turkey_germany : list (string * json) :=
  [("source_country", JStr "Turkey"); ("mission_country", JStr "Germany")].

(** A file of examples, and one with an item that lacks its source. *)
Definition examples_file : list json :=
  [JDict turkey_germany;
   JDict [("source_country", JStr "Turkey"); ("mission_country", JStr "Austria")]].

Definition broken_examples_file : list json :=
  [JDict turkey_germany; JDict [("mission_country", JStr "France")]].

(** Settings as they are before a first save: both countries empty. *)
Definition unset_settings : Settings :=
  {| source_country := ""; mission_country := "";
     check_interval := 300; send_all_updates := true |}.


Definition france_fields : list (string * json) :=
  [("source_country", JStr "Turkey"); ("mission_country", JStr "France");
   ("appointment_date", JStr "2024-07-01"); ("people_looking", JInt 3)].

(** * Properties *)

Section Properties.

Context `{Runtime}.

Implicit Types (settings : Settings) (st : cycle_state) (d : list (string * json)).

Lemma dict_get_distinct (k : string) (v : json) d :
  distinct (map fst d) = true -> In (k, v) d -> dict_get k d = Some v.
Proof.
  induction d as [|[k' v'] d IH]; [done|].
  simpl. intros Hd [[= -> ->] | Hin].
  - by rewrite String.eqb_refl.
  - apply andb_true_iff in Hd as [Hk Hd].
    destruct (String.eqb k' k) eqn:E.
    + apply String.eqb_eq in E. subst k'.
      apply negb_true_iff in Hk.
      assert (existsb (String.eqb k) (map fst d) = true); [|congruence].
      apply existsb_exists. exists k. split; [|apply String.eqb_refl].
      apply in_map_iff. by exists (k, v).
    + by apply IH.
Qed.

(** A parsed JSON value is equal to itself. *)
Lemma py_eq_refl : forall v : json, wf_json v = true -> py_eq v v = true.
Proof.
  fix IH 1. intros [| b | n | s | l | d]; simpl; intros Hwf.
  - reflexivity.
  - destruct b; reflexivity.
  - apply Z.eqb_refl.
  - apply String.eqb_refl.
  - induction l as [|x l IHl]; [reflexivity|].
    simpl in Hwf. apply andb_true_iff in Hwf as [Hx Hl].
    rewrite (IH x Hx). simpl. apply IHl, Hl.
  - apply andb_true_iff in Hwf as [Hkeys Hvals].
    rewrite Nat.eqb_refl. simpl.
    assert (Hsub : forall k v, In (k, v) d -> In (k, v) d) by (intros; assumption).
    revert Hsub Hvals. generalize d at 1 3 5 as d'.
    induction d' as [|[k v] d' IHd]; [reflexivity|].
    intros Hsub Hvals. simpl in Hvals. apply andb_true_iff in Hvals as [Hv Hvals].
    rewrite (dict_get_distinct k v d Hkeys) by (apply Hsub; by left).
    rewrite (IH v Hv). simpl. apply IHd; [|exact Hvals].
    intros k' v' Hin. apply Hsub. by right.
Qed.

Lemma py_eq_JStr (v : json) (s : string) : py_eq v (JStr s) = true -> v = JStr s.
Proof.
  destruct v; simpl; try discriminate.
  intros E. apply String.eqb_eq in E. by subst.
Qed.

Lemma py_truthy_get d field :
  py_truthy (py_get d field JNull) = true ->
  exists v, dict_get field d = Some v /\ py_truthy v = true.
Proof.
  unfold py_get. destruct (dict_get field d) as [v|]; [eauto | discriminate].
Qed.

Lemma dict_index_get d field v :
  dict_get field d = Some v -> dict_index d field = Ok v /\ py_get d field JNull = v.
Proof. unfold dict_index, py_get. by intros ->. Qed.

Lemma annotate_raises store key i e :
  annotate store key i = Raise e -> e = TypeError.
Proof.
  unfold annotate. destruct (store !! key) as [prev|]; [|discriminate].
  destruct (py_ne _ _); [|discriminate].
  destruct (people_looking i), (people_looking prev); simpl; congruence.
Qed.

(** One turn of the loop, read through [normalise]. *)
Lemma process_appointment_normalise settings st appointment :
  process_appointment settings st appointment =
  match normalise settings appointment with
  | Some (key, i) =>
      i' ← annotate st.1 key i;
      Ok (<[key := i']> st.1, (st.2 ++ [i'])%list)
  | None => Ok st
  end.
Proof.
  destruct appointment as [| | | |l|d]; try reflexivity.
  unfold process_appointment, normalise.
  destruct (forallb _ required_fields) eqn:Hreq.
  - assert (py_truthy (JDict d) = true) as ->.
    { destruct d; [discriminate | reflexivity]. }
    simpl in Hreq.
    destruct (py_truthy (py_get d "source_country" JNull)) eqn:Hs; [|discriminate].
    destruct (py_truthy (py_get d "mission_country" JNull)) eqn:Hm; [|discriminate].
    destruct (py_truthy (py_get d "appointment_date" JNull)) eqn:Hd; [|discriminate].
    apply py_truthy_get in Hs as (vs & Hs & _).
    apply py_truthy_get in Hm as (vm & Hm & _).
    apply py_truthy_get in Hd as (vd & Hd & _).
    destruct (dict_index_get _ _ _ Hs) as [Is Gs].
    destruct (dict_index_get _ _ _ Hm) as [Im Gm].
    destruct (dict_index_get _ _ _ Hd) as [Id Gd].
    cbn [negb andb]. rewrite Is, Im, Gs, Gm, Gd. simpl.
    destruct (py_eq vs _ && py_eq vm _); [|reflexivity].
    unfold try_body. rewrite Id, Is, Im. simpl.
    destruct (parse_appointment_date vd) as [apt|e] eqn:Hp; simpl.
    + destruct (annotate st.1 _ _) as [i'|e] eqn:Ha; simpl; [reflexivity|].
      by rewrite (annotate_raises _ _ _ _ Ha).
    + unfold parse_appointment_date in Hp.
      destruct vd; try (inversion Hp; subst; reflexivity).
      destruct (strptime_Ymd _); inversion Hp; subst; reflexivity.
  - destruct (py_truthy (JDict d)); reflexivity.
Qed.

Lemma normalise_inv settings appointment key i :
  normalise settings appointment = Some (key, i) ->
  exists d text apt_date,
    appointment = JDict d /\
    dict_get "source_country" d = Some (JStr (source_country settings)) /\
    dict_get "mission_country" d = Some (JStr (mission_country settings)) /\
    dict_get "appointment_date" d = Some (JStr text) /\
    strptime_Ymd (before "T"%char text) = Some apt_date /\
    key = source_country settings +:+ "_" +:+ mission_country settings +:+ "_"
          +:+ strftime_Ymd apt_date /\
    i = appointment_info d apt_date.
Proof.
  destruct appointment as [| | | |l|d]; try discriminate.
  unfold normalise.
  destruct (forallb _ required_fields) eqn:Hreq; [|discriminate].
  simpl in Hreq.
  destruct (py_truthy (py_get d "source_country" JNull)) eqn:Hs; [|discriminate].
  destruct (py_truthy (py_get d "mission_country" JNull)) eqn:Hm; [|discriminate].
  destruct (py_truthy (py_get d "appointment_date" JNull)) eqn:Hd; [|discriminate].
  apply py_truthy_get in Hs as (vs & Hs & _).
  apply py_truthy_get in Hm as (vm & Hm & _).
  apply py_truthy_get in Hd as (vd & Hd & _).
  destruct (dict_index_get _ _ _ Hs) as [_ Gs].
  destruct (dict_index_get _ _ _ Hm) as [_ Gm].
  destruct (dict_index_get _ _ _ Hd) as [_ Gd].
  rewrite Gs, Gm, Gd. cbn [andb].
  destruct (py_eq vs _) eqn:Es; [|discriminate].
  destruct (py_eq vm _) eqn:Em; [|discriminate].
  apply py_eq_JStr in Es, Em. subst vs vm. cbn [andb].
  unfold parse_appointment_date.
  destruct vd as [| | |text| |]; try discriminate.
  destruct (strptime_Ymd _) as [apt|] eqn:Hp; [|discriminate].
  rewrite Es in Hs. rewrite Em in Hm. rewrite Es, Em.
  intros [= <- <-]. exists d, text, apt. by repeat split.
Qed.

Lemma clear_change_appointment_info d apt_date :
  clear_change (appointment_info d apt_date) = appointment_info d apt_date.
Proof. reflexivity. Qed.

Lemma annotate_clear_change store key i i' :
  annotate store key i = Ok i' -> clear_change i' = clear_change i.
Proof.
  unfold annotate. destruct (store !! key) as [prev|]; [|by intros [= ->]].
  destruct (py_ne _ _); [|by intros [= ->]].
  destruct (py_sub _ _) as [c|e]; simpl; [|discriminate].
  by intros [= <-].
Qed.

Lemma process_all_cons settings st appointment rest :
  process_all settings st (appointment :: rest) =
  match normalise settings appointment with
  | Some (key, i) =>
      match annotate st.1 key i with
      | Ok i' => process_all settings (<[key := i']> st.1, (st.2 ++ [i'])%list) rest
      | Raise e => (st, Some e)
      end
  | None => process_all settings st rest
  end.
Proof.
  simpl. rewrite process_appointment_normalise.
  destruct (normalise settings appointment) as [[key i]|]; [|reflexivity].
  destruct (annotate st.1 key i); reflexivity.
Qed.

Lemma process_all_app settings st l1 l2 :
  process_all settings st (l1 ++ l2) =
  match process_all settings st l1 with
  | (st1, None) => process_all settings st1 l2
  | failure => failure
  end.
Proof.
  revert st. induction l1 as [|a l1 IH]; intros st; [reflexivity|].
  simpl. destruct (process_appointment settings st a); [apply IH | reflexivity].
Qed.

(** A record without a snapshot leaves no trace, wherever it stands. *)
Lemma process_all_skip settings st l1 appointment l2 :
  normalise settings appointment = None ->
  process_all settings st (l1 ++ appointment :: l2) =
  process_all settings st (l1 ++ l2).
Proof.
  intros Hn. rewrite !process_all_app.
  destruct (process_all settings st l1) as [st1 [e|]]; [reflexivity|].
  by rewrite process_all_cons, Hn.
Qed.

(** Where the snapshots of the output list and of the store come from. *)
Lemma process_all_provenance settings data : forall st st' oe,
  process_all settings st data = (st', oe) ->
  (forall i, i ∈ st'.2 ->
     i ∈ st.2 \/
     exists a key i0, a ∈ data /\ normalise settings a = Some (key, i0) /\
                      clear_change i = i0 /\ is_Some (st'.1 !! key)) /\
  (forall key, st'.1 !! key = st.1 !! key \/
     exists a i0 i, a ∈ data /\ normalise settings a = Some (key, i0) /\
                    st'.1 !! key = Some i /\ clear_change i = clear_change i0).
Proof.
  induction data as [|a data IH]; intros st st' oe.
  - intros [= <- <-]. split; [by left | by left].
  - rewrite process_all_cons.
    destruct (normalise settings a) as [[key i0]|] eqn:Hn.
    + destruct (annotate st.1 key i0) as [i'|e] eqn:Ha.
      * intros Hrest. destruct (IH _ _ _ Hrest) as [Hout Hstore]. simpl in *.
        assert (Hc : clear_change i' = clear_change i0)
          by apply (annotate_clear_change _ _ _ _ Ha).
        assert (Hkey : is_Some (st'.1 !! key)).
        { destruct (Hstore key) as [E | (b & j0 & j & _ & _ & E & _)].
          - rewrite E, lookup_insert_eq. eauto.
          - rewrite E. eauto. }
        split.
        -- intros i Hi. destruct (Hout i Hi) as [Hin | (b & k & j0 & Hb & Hnb & Hcb)].
           ++ apply elem_of_app in Hin as [Hin | Hin]; [by left | right].
              apply list_elem_of_singleton in Hin. subst i.
              exists a, key, i0. split; [apply list_elem_of_here|].
              split; [done|]. split; [|done].
              rewrite Hc. apply normalise_inv in Hn as (d & t & apt & _ & _ & _ & _ & _ & _ & ->).
              reflexivity.
           ++ right. exists b, k, j0. split; [by apply list_elem_of_further | done].
        -- intros k. destruct (Hstore k) as [E | (b & j0 & j & Hb & Hnb & E & Hcb)].
           ++ destruct (decide (key = k)) as [<- | Hne].
              ** right. exists a, i0, i'. rewrite E, lookup_insert_eq.
                 split; [apply list_elem_of_here | done].
              ** left. by rewrite E, lookup_insert_ne.
           ++ right. exists b, j0, j. split; [by apply list_elem_of_further | done].
      * intros [= <- <-]. split; [by left | by left].
    + intros Hrest. destruct (IH _ _ _ Hrest) as [Hout Hstore]. split.
      * intros i Hi. destruct (Hout i Hi) as [Hin | (b & k & j0 & Hb & Hnb)]; [by left|].
        right. exists b, k, j0. split; [by apply list_elem_of_further | done].
      * intros k. destruct (Hstore k) as [E | (b & j0 & j & Hb & Hnb)]; [by left|].
        right. exists b, j0, j. split; [by apply list_elem_of_further | done].
Qed.

(** What a cycle that ends with [update_signal] has done. *)
Lemma check_appointments_update settings h now data result :
  emitted (check_appointments settings h now (Ok (JList data))) = update_signal result ->
  exists store,
    process_all settings (history_appointments h, []) data
      = ((store, appointments result), None) /\
    history_after (check_appointments settings h now (Ok (JList data)))
      = {| last_scan := Some (JStr now); history_appointments := store |} /\
    dumped (check_appointments settings h now (Ok (JList data)))
      = Some {| last_scan := Some (JStr now); history_appointments := store |} /\
    compute_api_last_checked (JList data) = Ok (api_last_checked result) /\
    current_time result = now.
Proof.
  unfold check_appointments.
  destruct (compute_api_last_checked (JList data)) as [api|e]; [|discriminate].
  cbn [py_iter].
  destruct (process_all settings (history_appointments h, []) data)
    as [[store found] [e|]]; [discriminate|].
  cbn. intros [= <-]. exists store. by repeat split.
Qed.

Lemma signal_appointments_update settings h now response i :
  i ∈ signal_appointments (emitted (check_appointments settings h now response)) ->
  exists result,
    emitted (check_appointments settings h now response) = update_signal result /\
    i ∈ appointments result.
Proof.
  destruct (emitted _) as [result|msg]; simpl; [eauto|].
  intros Hi. by apply elem_of_nil in Hi.
Qed.

(** C1.  Every snapshot in the appointment list a cycle emits was built
    from a record of the listing whose source_country and mission_country
    are those of the settings, and it was stored under the key made of
    these two countries and of the record's date. *)
Theorem filter_correctness settings h now data i :
  i ∈ signal_appointments
        (emitted (check_appointments settings h now (Ok (JList data)))) ->
  exists d text apt_date,
    JDict d ∈ data /\
    dict_get "source_country" d = Some (JStr (source_country settings)) /\
    dict_get "mission_country" d = Some (JStr (mission_country settings)) /\
    dict_get "appointment_date" d = Some (JStr text) /\
    strptime_Ymd (before "T"%char text) = Some apt_date /\
    clear_change i = appointment_info d apt_date /\
    is_Some (history_appointments
               (history_after (check_appointments settings h now (Ok (JList data))))
             !! (source_country settings +:+ "_" +:+ mission_country settings
                 +:+ "_" +:+ strftime_Ymd apt_date)).
Proof.
  intros Hi. apply signal_appointments_update in Hi as (result & Hr & Hi).
  apply check_appointments_update in Hr as (store & Hp & -> & _).
  apply process_all_provenance in Hp as [Hout _]. simpl in Hout.
  destruct (Hout i Hi) as [Hin | (a & key & i0 & Ha & Hn & Hc & Hk)].
  { by apply elem_of_nil in Hin. }
  apply normalise_inv in Hn as (d & text & apt & -> & Hs & Hm & Hd & Hp & -> & ->).
  exists d, text, apt. by repeat split.
Qed.

(** A record that yields no snapshot changes neither the store nor the
    output of the cycle, wherever it stands in the listing. *)
Lemma dropped_record_leaves_no_trace settings h now l1 appointment l2 :
  normalise settings appointment = None ->
  is_error (emitted (check_appointments settings h now
                       (Ok (JList (l1 ++ appointment :: l2))))) = false ->
  process_all settings (history_appointments h, []) (l1 ++ l2) =
  ((history_appointments
      (history_after (check_appointments settings h now
                        (Ok (JList (l1 ++ appointment :: l2))))),
    signal_appointments
      (emitted (check_appointments settings h now
                  (Ok (JList (l1 ++ appointment :: l2)))))), None).
Proof.
  intros Hn Herr.
  destruct (emitted _) as [result|msg] eqn:Hr; [|discriminate].
  apply check_appointments_update in Hr as (store & Hp & -> & _).
  by rewrite process_all_skip in Hp.
Qed.

Lemma normalise_falsy_field settings d field :
  field ∈ required_fields ->
  py_truthy (py_get d field JNull) = false ->
  normalise settings (JDict d) = None.
Proof.
  intros Hf Hfalsy. unfold normalise.
  assert (forallb (fun field => py_truthy (py_get d field JNull)) required_fields
          = false) as ->; [|reflexivity].
  apply not_true_is_false. intros Hall. rewrite forallb_forall in Hall.
  rewrite (Hall field) in Hfalsy; [discriminate|]. by apply list_elem_of_In.
Qed.

(** C4.  A record that lacks source_country, mission_country or
    appointment_date is skipped by the loop, and a cycle that emits a
    result has the output list and the store of the same listing without
    that record, whatever stands before and after it. *)
Theorem missing_required_field_dropped settings h now l1 d l2 field st :
  field ∈ required_fields ->
  dict_get field d = None ->
  process_appointment settings st (JDict d) = Ok st /\
  (is_error (emitted (check_appointments settings h now
                        (Ok (JList (l1 ++ JDict d :: l2))))) = false ->
   process_all settings (history_appointments h, []) (l1 ++ l2) =
   ((history_appointments
       (history_after (check_appointments settings h now
                         (Ok (JList (l1 ++ JDict d :: l2))))),
     signal_appointments
       (emitted (check_appointments settings h now
                   (Ok (JList (l1 ++ JDict d :: l2)))))), None)).
Proof.
  intros Hf Hmiss.
  assert (Hn : normalise settings (JDict d) = None).
  { apply (normalise_falsy_field _ _ field Hf). unfold py_get. by rewrite Hmiss. }
  split.
  - by rewrite process_appointment_normalise, Hn.
  - by apply dropped_record_leaves_no_trace.
Qed.

(** C10.  A record whose source_country, mission_country or
    appointment_date is present with a falsy value (null, false, 0, the
    empty string, an empty list or dict) is skipped the same way: the loop
    leaves the store and the output as they are, and a cycle that emits a
    result has the output list and the store of the listing without that
    record. *)
Theorem falsy_required_field_dropped settings h now l1 d l2 field v st :
  field ∈ required_fields ->
  dict_get field d = Some v ->
  py_truthy v = false ->
  process_appointment settings st (JDict d) = Ok st /\
  (is_error (emitted (check_appointments settings h now
                        (Ok (JList (l1 ++ JDict d :: l2))))) = false ->
   process_all settings (history_appointments h, []) (l1 ++ l2) =
   ((history_appointments
       (history_after (check_appointments settings h now
                         (Ok (JList (l1 ++ JDict d :: l2))))),
     signal_appointments
       (emitted (check_appointments settings h now
                   (Ok (JList (l1 ++ JDict d :: l2)))))), None)).
Proof.
  intros Hf Hget Hfalsy.
  assert (Hn : normalise settings (JDict d) = None).
  { apply (normalise_falsy_field _ _ field Hf). unfold py_get. by rewrite Hget. }
  split.
  - by rewrite process_appointment_normalise, Hn.
  - by apply dropped_record_leaves_no_trace.
Qed.

(** The loop only appends to the output list. *)
Lemma process_all_output_grows settings data : forall st st' oe,
  process_all settings st data = (st', oe) -> exists extra, st'.2 = (st.2 ++ extra)%list.
Proof.
  induction data as [|a data IH]; intros st st' oe.
  - intros [= <- <-]. exists []. by rewrite app_nil_r.
  - rewrite process_all_cons.
    destruct (normalise settings a) as [[key i0]|]; [|apply IH].
    destruct (annotate st.1 key i0) as [i'|e].
    + intros Hrest. apply IH in Hrest as [extra ->]. simpl.
      exists (i' :: extra). by rewrite <- app_assoc.
    + intros [= <- <-]. exists []. by rewrite app_nil_r.
Qed.

(** Records that yield other keys leave the entry of [key] alone. *)
Lemma process_all_frame settings key data st st' oe :
  (forall a k i, a ∈ data -> normalise settings a = Some (k, i) -> k <> key) ->
  process_all settings st data = (st', oe) ->
  st'.1 !! key = st.1 !! key.
Proof.
  intros Hother Hp. apply process_all_provenance in Hp as [_ Hstore].
  destruct (Hstore key) as [E | (a & i0 & i & Ha & Hn & _)]; [done|].
  by destruct (Hother a key i0 Ha Hn).
Qed.

Lemma annotate_changed store key i prev N M :
  store !! key = Some prev ->
  people_looking prev = JInt N ->
  people_looking i = JInt M ->
  M <> N ->
  annotate store key i = Ok (set_change i (M - N)).
Proof.
  intros Hprev HN HM Hne. unfold annotate. rewrite Hprev, HN, HM. simpl.
  unfold py_ne. simpl.
  destruct (Z.eqb_spec N M) as [->|_]; [done | reflexivity].
Qed.







(** ** The body that is not a list *)

Lemma process_all_strings settings st (l : list json) :
  Forall (fun a => exists s, a = JStr s) l ->
  process_all settings st l = (st, None).
Proof.
  induction 1 as [|a l [s ->] _ IH]; [reflexivity|].
  by rewrite process_all_cons.
Qed.

Lemma chars_strings (s : string) : Forall (fun a => exists t, a = JStr t) (chars s).
Proof. induction s; simpl; constructor; eauto. Qed.

Lemma keys_strings (d : list (string * json)) :
  Forall (fun a => exists t, a = JStr t) (map (fun kv => JStr kv.1) d).
Proof. induction d; simpl; constructor; eauto. Qed.

(** C5 (amended).  A fetch that raises ends the cycle with an error
    signal.  A body that is JSON null, a boolean or a number does too,
    and the history is left as it was.  A body that is a JSON object or a
    JSON string is read as a listing without records: the cycle emits a
    result with an empty appointment list and no upstream timestamp, and
    sets last_scan. *)
Theorem non_list_body settings h now data :
  is_list data = false ->
  (forall e, check_appointments settings h now (Raise e) = failed h e) /\
  match data with
  | JStr _ | JDict _ =>
      check_appointments settings h now (Ok data) =
      {| history_after := {| last_scan := Some (JStr now);
                             history_appointments := history_appointments h |};
         emitted := update_signal
           {| current_time := now;
              last_check := match last_scan h with
                            | Some v => v
                            | None => JStr first_check_label
                            end;
              api_last_checked := None;
              appointments := [];
              error := None |};
         dumped := Some {| last_scan := Some (JStr now);
                           history_appointments := history_appointments h |} |}
  | _ => check_appointments settings h now (Ok data) = failed h TypeError
  end.
Proof.
  intros Hlist. split; [reflexivity|].
  destruct data as [| | |s|l|d]; try reflexivity; try discriminate.
  - unfold check_appointments. cbn [compute_api_last_checked py_iter].
    by rewrite (process_all_strings _ _ _ (chars_strings s)).
  - unfold check_appointments. cbn [compute_api_last_checked py_iter].
    by rewrite (process_all_strings _ _ _ (keys_strings d)).
Qed.

(** ** The upstream timestamp *)

Lemma scan_record_skip latest appointment :
  last_checked_of appointment = None ->
  scan_record latest appointment = Ok latest.
Proof.
  destruct appointment as [| | | | |d]; try reflexivity.
  unfold last_checked_of, scan_record.
  destruct (dict_get "last_checked" d) as [v|]; [|reflexivity].
  unfold parse_last_checked.
  destruct v as [| | |s| |]; try reflexivity.
  destruct (fromisoformat _); [discriminate | reflexivity].
Qed.

Lemma scan_record_parsed latest appointment t :
  last_checked_of appointment = Some t ->
  scan_record latest appointment =
  (newer ← match latest with
            | None => Ok true
            | Some l => dt_gt t l
            end;
   Ok (if newer : bool then Some t else latest)).
Proof.
  destruct appointment as [| | | | |d]; try discriminate.
  unfold last_checked_of, scan_record.
  destruct (dict_get "last_checked" d) as [v|]; [|discriminate].
  destruct (parse_last_checked v) as [t'|e]; [|discriminate].
  intros [= ->]. simpl.
  destruct latest as [l|]; [|reflexivity]. simpl.
  unfold dt_gt. destruct (utcoffset t), (utcoffset l); reflexivity.
Qed.

(** The scan sees the parseable timestamps of all records and nothing
    else. *)
Lemma scan_last_checked_times data : forall latest,
  scan_last_checked latest data = scan_times latest (parsed_times data).
Proof.
  induction data as [|a data IH]; intros latest; [reflexivity|].
  cbn [scan_last_checked]. unfold parsed_times. cbn [omap list_omap].
  destruct (last_checked_of a) as [t|] eqn:Ha.
  - rewrite (scan_record_parsed _ _ _ Ha). cbn [scan_times].
    destruct (match latest with None => Ok true | Some l => dt_gt t l end) as [b|e];
      [|reflexivity].
    simpl. apply IH.
  - rewrite (scan_record_skip _ _ Ha). simpl. apply IH.
Qed.


Lemma dt_gt_step (u t a : datetime) :
  dt_gt u t = Ok false -> dt_gt a t = Ok true -> dt_gt u a = Ok false.
Proof.
  unfold dt_gt.
  destruct (utcoffset u), (utcoffset t), (utcoffset a); try discriminate;
    intros [= Hu] [= Ha]; f_equal; lia.
Qed.






(** ** The notifier *)

(** C8.  For every result, [handle_update] posts exactly one message when
    the appointment list is not empty; when it is empty it posts exactly
    one message, which ends with the no-appointments footer, if the
    setting send_all_updates is on, and none if it is off. *)
Theorem dispatch_policy settings result :
  match appointments result with
  | _ :: _ => length (handle_update settings result).2 = 1%nat
  | [] =>
      (handle_update settings result).2 =
      if send_all_updates settings
      then [report_header settings result +:+ no_appointments_footer]
      else []
  end.
Proof.
  unfold handle_update.
  destruct (appointments result) as [|apt rest]; [reflexivity|].
  destruct (sort_appointments (apt :: rest)); reflexivity.
Qed.

(** *** The sort of line 574 *)

Lemma date_ltb_asym (a b : civil) : date_ltb a b = true -> date_ltb b a = false.
Proof.
  unfold date_ltb. intros Hab. apply not_true_is_false. intros Hba.
  rewrite !orb_true_iff, !andb_true_iff, !orb_true_iff, !andb_true_iff in Hab, Hba.
  rewrite !Z.ltb_lt, !Z.eqb_eq in Hab, Hba. lia.
Qed.

Lemma insert_by_key_perm (x : civil * info) l : insert_by_key x l ≡ₚ x :: l.
Proof.
  induction l as [|y l IH]; simpl; [done|].
  destruct (date_ltb y.1 x.1); [|done].
  rewrite IH. apply Permutation_swap.
Qed.

Lemma sort_by_key_perm (l : list (civil * info)) : sort_by_key l ≡ₚ l.
Proof.
  induction l as [|x l IH]; simpl; [done|].
  by rewrite insert_by_key_perm, IH.
Qed.

Lemma ascending_insert (x : civil * info) l :
  ascending (map fst l) = true -> ascending (map fst (insert_by_key x l)) = true.
Proof.
  induction l as [|y l IH]; [done|].
  intros Hasc. cbn [insert_by_key].
  assert (Hl : ascending (map fst l) = true).
  { destruct l; [done|]. cbn [map ascending] in Hasc.
    by apply andb_true_iff in Hasc as [_ ?]. }
  specialize (IH Hl).
  destruct (date_ltb y.1 x.1) eqn:Hyx.
  - destruct l as [|z l].
    + cbn. unfold date_leb. by rewrite (date_ltb_asym _ _ Hyx).
    + cbn [insert_by_key] in *. destruct (date_ltb z.1 x.1) eqn:Hzx.
      * cbn [map ascending] in *.
        apply andb_true_iff in Hasc as [Hyz _].
        apply andb_true_iff. by split.
      * cbn [map ascending] in *. apply andb_true_iff. split; [|done].
        unfold date_leb. by rewrite (date_ltb_asym _ _ Hyx).
  - cbn [map ascending]. apply andb_true_iff. split; [|done].
    unfold date_leb. by rewrite Hyx.
Qed.

Lemma sort_by_key_ascending (l : list (civil * info)) :
  ascending (map fst (sort_by_key l)) = true.
Proof.
  induction l as [|x l IH]; [done|]. simpl. by apply ascending_insert.
Qed.

Lemma with_keys_ok l : forall keyed,
  with_keys l = Ok keyed ->
  map snd keyed = l /\ Forall (fun kx => sort_key kx.2 = Ok kx.1) keyed.
Proof.
  induction l as [|x l IH]; intros keyed.
  - intros [= <-]. by split.
  - cbn [with_keys]. destruct (sort_key x) as [k|e] eqn:Hk; [|discriminate].
    destruct (with_keys l) as [rest|e]; [|discriminate].
    simpl. intros [= <-]. destruct (IH rest eq_refl) as [Hm Hf].
    split; [simpl; by rewrite Hm | by constructor].
Qed.

Lemma with_keys_keyed (keyed : list (civil * info)) :
  Forall (fun kx => sort_key kx.2 = Ok kx.1) keyed ->
  with_keys (map snd keyed) = Ok keyed.
Proof.
  induction 1 as [|[k x] keyed Hk _ IH]; [reflexivity|].
  cbn [map with_keys snd]. simpl in Hk. rewrite Hk, IH. reflexivity.
Qed.

Lemma with_keys_parse l :
  Forall (fun i => is_Some (strptime_dmY (date i))) l ->
  exists keyed, with_keys l = Ok keyed.
Proof.
  induction 1 as [|x l [k Hk] _ [rest IH]]; [by exists []|].
  exists ((k, x) :: rest). cbn [with_keys]. unfold sort_key. by rewrite Hk, IH.
Qed.

(** A list whose dates parse is sorted into ascending order of date. *)
Lemma sort_appointments_sorts l :
  Forall (fun i => is_Some (strptime_dmY (date i))) l ->
  exists sorted,
    sort_appointments l = Ok sorted /\
    ordered_by_date sorted = true /\
    sorted ≡ₚ l.
Proof.
  intros Hparse. destruct (with_keys_parse l Hparse) as [keyed Hk].
  exists (map snd (sort_by_key keyed)).
  unfold sort_appointments. rewrite Hk. split; [reflexivity|].
  destruct (with_keys_ok _ _ Hk) as [Hm Hf].
  split.
  - unfold ordered_by_date. rewrite with_keys_keyed.
    + apply sort_by_key_ascending.
    + by rewrite sort_by_key_perm.
  - by rewrite sort_by_key_perm, Hm.
Qed.

(** Annotations aside, the loop appends the snapshots of the records in
    the order of the listing. *)
Lemma process_all_order settings data : forall st st' oe,
  process_all settings st data = (st', oe) ->
  oe = None ->
  map clear_change st'.2 =
  (map clear_change st.2 ++ map snd (omap (normalise settings) data))%list.
Proof.
  induction data as [|a data IH]; intros st st' oe.
  - intros [= <- <-] _. by rewrite app_nil_r.
  - rewrite process_all_cons. cbn [omap list_omap].
    destruct (normalise settings a) as [[key i0]|] eqn:Hn; [|apply IH].
    destruct (annotate st.1 key i0) as [i'|e] eqn:Ha.
    + intros Hp Hoe. rewrite (IH _ _ _ Hp Hoe). simpl.
      rewrite map_app, <- app_assoc. simpl.
      rewrite (annotate_clear_change _ _ _ _ Ha).
      apply normalise_inv in Hn as (d & t & apt & _ & _ & _ & _ & _ & _ & ->).
      reflexivity.
    + intros [= <- <-]. discriminate.
Qed.

(** C6 (amended).  The appointment list of the result a cycle emits
    holds the snapshots of the matching records in the order of the
    listing.  [handle_update] then sorts it in place: when the dates of
    the snapshots parse, the list it leaves is a rearrangement of the
    emitted one in ascending order of date, and the report shows the
    snapshots in that order. *)
Theorem handle_update_orders_by_date settings h now data result :
  emitted (check_appointments settings h now (Ok (JList data))) = update_signal result ->
  Forall (fun i => is_Some (strptime_dmY (date i))) (appointments result) ->
  map clear_change (appointments result) = map snd (omap (normalise settings) data) /\
  ordered_by_date (appointments (handle_update settings result).1) = true /\
  appointments (handle_update settings result).1 ≡ₚ appointments result /\
  match appointments result with
  | _ :: _ =>
      (handle_update settings result).2 =
      [report_header settings result +:+ available_label +:+
       pretty (Z.of_nat (length (appointments (handle_update settings result).1)))
       +:+ "):" +:+ nl +:+ nl +:+
       appointment_blocks (appointments (handle_update settings result).1)]
  | [] => True
  end.
Proof.
  intros Hr Hparse. split.
  - apply check_appointments_update in Hr as (store & Hp & _).
    by apply process_all_order in Hp.
  - destruct (sort_appointments_sorts _ Hparse) as (sorted & Hs & Hord & Hperm).
    unfold handle_update.
    destruct (appointments result) as [|apt rest] eqn:Happ.
    + cbn. rewrite Happ. apply Permutation_nil_r in Hperm. subst sorted.
      by repeat split.
    + rewrite Hs. cbn. by repeat split.
Qed.

(** *** When the dates of the snapshots parse back *)













(** *** The sort keeps snapshots of one date in their order *)

Lemma date_eqb_ltb_l (a b k : civil) :
  date_ltb a b = true -> date_eqb b k = true -> date_eqb a k = false.
Proof.
  unfold date_eqb, date_ltb. rewrite !andb_true_iff, !Z.eqb_eq.
  intros Hlt [[Hy Hm] Hd]. apply not_true_is_false.
  rewrite !andb_true_iff, !Z.eqb_eq. intros [[Hy' Hm'] Hd'].
  rewrite !orb_true_iff, !andb_true_iff, !orb_true_iff, !andb_true_iff in Hlt.
  rewrite !Z.ltb_lt, !Z.eqb_eq in Hlt. lia.
Qed.

Lemma insert_by_key_stable (k : civil) (x : civil * info) l :
  List.filter (fun y => date_eqb y.1 k) (insert_by_key x l) =
  List.filter (fun y => date_eqb y.1 k) (x :: l).
Proof.
  induction l as [|y l IH]; [reflexivity|].
  cbn [insert_by_key]. destruct (date_ltb y.1 x.1) eqn:Hyx; [|reflexivity].
  cbn [List.filter] in *. rewrite IH.
  destruct (date_eqb x.1 k) eqn:Hx; [|reflexivity].
  by rewrite (date_eqb_ltb_l _ _ _ Hyx Hx).
Qed.

Lemma sort_by_key_stable (k : civil) (l : list (civil * info)) :
  List.filter (fun y => date_eqb y.1 k) (sort_by_key l) =
  List.filter (fun y => date_eqb y.1 k) l.
Proof.
  induction l as [|x l IH]; [reflexivity|].
  cbn [sort_by_key]. rewrite insert_by_key_stable. cbn [List.filter].
  by rewrite IH.
Qed.

(** ** When a cycle emits a result *)




(** ** The worker loop and the stop flag *)

Lemma sleep_loop_spec settings (stopped : nat -> bool) seconds : forall reading next sleeps,
  sleep_loop stopped reading seconds = (next, sleeps) ->
  (reading <= next)%nat /\
  Forall (fun s => (reading <= step_reading s)%nat /\
                   stopped (step_reading s) = false) sleeps.
Proof.
  induction seconds as [|seconds IH]; intros reading next sleeps.
  - intros [= <- <-]. by split.
  - cbn [sleep_loop]. destruct (stopped reading) eqn:Hs.
    + intros [= <- <-]. split; [lia | done].
    + destruct (sleep_loop stopped (S reading) seconds) as [n sl] eqn:Hl.
      intros [= <- <-]. destruct (IH _ _ _ Hl) as [Hle Hall]. split; [lia|].
      constructor; [by split|].
      eapply Forall_impl; [exact Hall|]. simpl. intros s [? ?]. split; [lia | done].
Qed.

(** Every step of the worker began after a reading that found the flag
    clear. *)
Lemma run_steps_clear settings (stopped : nat -> bool) fuel : forall reading steps,
  run settings fuel stopped reading = Some steps ->
  Forall (fun s => (reading <= step_reading s)%nat /\
                   stopped (step_reading s) = false) steps.
Proof.
  induction fuel as [|fuel IH]; intros reading steps; [discriminate|].
  cbn [run]. destruct (stopped reading) eqn:Hs; [by intros [= <-]|].
  destruct (sleep_loop stopped (S reading) (check_interval settings))
    as [next sleeps] eqn:Hl.
  destruct (run settings fuel stopped next) as [rest|] eqn:Hr; [|discriminate].
  intros [= <-]. destruct (sleep_loop_spec settings _ _ _ _ _ Hl) as [Hle Hsl].
  constructor; [by split|]. apply Forall_app. split.
  - eapply Forall_impl; [exact Hsl|]. simpl. intros s [? ?]. split; [lia | done].
  - eapply Forall_impl; [exact (IH _ _ Hr)|]. simpl. intros s [? ?].
    split; [lia | done].
Qed.

(** Once the readings find the flag set, the loop ends: from the [r]-th
    reading on, one more turn of fuel is enough. *)
Lemma run_terminates settings (stopped : nat -> bool) (r : nat) :
  (forall n, (r <= n)%nat -> stopped n = true) ->
  forall fuel reading, (r <= reading + fuel)%nat ->
  exists steps, run settings (S fuel) stopped reading = Some steps.
Proof.
  intros Hset. induction fuel as [|fuel IH]; intros reading Hfuel.
  - cbn [run]. rewrite (Hset reading) by lia. by eexists.
  - change (run settings (S (S fuel)) stopped reading)
      with (if stopped reading then Some []
            else let '(next, sleeps) :=
                   sleep_loop stopped (S reading) (check_interval settings) in
                 match run settings (S fuel) stopped next with
                 | Some rest => Some (cycle_step reading :: sleeps ++ rest)%list
                 | None => None
                 end).
    destruct (stopped reading) eqn:Hs; [by eexists|].
    destruct (sleep_loop stopped (S reading) (check_interval settings))
      as [next sleeps] eqn:Hl.
    destruct (sleep_loop_spec settings _ _ _ _ _ Hl) as [Hle _].
    destruct (IH next ltac:(lia)) as [rest ->]. by eexists.
Qed.

(** Between one reading of the flag and the next the worker makes one
    step at most: the steps are in the strict order of their readings. *)
Lemma sleep_loop_increasing settings (stopped : nat -> bool) seconds :
  forall reading next sleeps,
  sleep_loop stopped reading seconds = (next, sleeps) ->
  Forall (fun s => (step_reading s < next)%nat) sleeps /\
  StronglySorted (fun a b => (step_reading a < step_reading b)%nat) sleeps.
Proof.
  induction seconds as [|seconds IH]; intros reading next sleeps.
  - intros [= <- <-]. split; constructor.
  - cbn [sleep_loop]. destruct (stopped reading) eqn:Hs.
    + intros [= <- <-]. split; constructor.
    + destruct (sleep_loop stopped (S reading) seconds) as [n sl] eqn:Hl.
      intros [= <- <-]. destruct (IH _ _ _ Hl) as [Hlt Hsorted].
      destruct (sleep_loop_spec settings _ _ _ _ _ Hl) as [Hle Hall].
      split.
      * constructor; [simpl; lia | done].
      * constructor; [done|]. eapply Forall_impl; [exact Hall|].
        simpl. intros s [? _]. lia.
Qed.

Lemma run_increasing settings (stopped : nat -> bool) fuel : forall reading steps,
  run settings fuel stopped reading = Some steps ->
  StronglySorted (fun a b => (step_reading a < step_reading b)%nat) steps.
Proof.
  induction fuel as [|fuel IH]; intros reading steps; [discriminate|].
  cbn [run]. destruct (stopped reading) eqn:Hs; [intros [= <-]; constructor|].
  destruct (sleep_loop stopped (S reading) (check_interval settings))
    as [next sleeps] eqn:Hl.
  destruct (run settings fuel stopped next) as [rest|] eqn:Hr; [|discriminate].
  intros [= <-].
  destruct (sleep_loop_spec settings _ _ _ _ _ Hl) as [Hle Hsl].
  destruct (sleep_loop_increasing settings _ _ _ _ _ Hl) as [Hlt Hsorted].
  pose proof (run_steps_clear settings _ _ _ _ Hr) as Hrest.
  constructor.
  - apply StronglySorted_app_2; [|done|by apply IH in Hr].
    intros s t Hs' Ht. rewrite Forall_forall in Hlt, Hrest.
    destruct (Hrest t Ht) as [? _]. specialize (Hlt s Hs'). lia.
  - apply Forall_app. split.
    + eapply Forall_impl; [exact Hsl|]. simpl. intros s [? _]. lia.
    + eapply Forall_impl; [exact Hrest|]. simpl. intros s [? _]. lia.
Qed.

(** X15.  When the flag is set between the readings [r] and [r + 1], the
    only step the worker can still make is the one reading [r] let begin:
    a cycle in flight, or one sleep of a second. *)
Lemma run_after_stop settings (stopped : nat -> bool) fuel (r : nat) steps :
  (forall n, stopped n = false -> (n <= r)%nat) ->
  run settings fuel stopped 0 = Some steps ->
  (length (List.filter (fun s => (r <=? step_reading s)%nat) steps) <= 1)%nat.
Proof.
  intros Hclear Hrun.
  pose proof (run_increasing settings _ _ _ _ Hrun) as Hsorted.
  pose proof (run_steps_clear settings _ _ _ _ Hrun) as Hsteps.
  clear Hrun. induction Hsorted as [|s steps Hsorted IH Hlt]; [simpl; lia|].
  apply Forall_cons in Hsteps as [[_ Hs] Hsteps]. specialize (IH Hsteps).
  cbn [List.filter]. destruct (Nat.leb_spec r (step_reading s)) as [Hrs|_]; [|done].
  assert (Hnone : List.filter (fun s => (r <=? step_reading s)%nat) steps = []).
  { clear IH Hsorted. induction steps as [|t steps IHt]; [done|].
    apply Forall_cons in Hlt as [Hst Hlt].
    apply Forall_cons in Hsteps as [[_ Ht] Hsteps].
    apply Hclear in Hs, Ht. exfalso. lia. }
  rewrite Hnone. simpl. lia.
Qed.

End Properties.

(** * Concrete runs *)

(** The example of the specification: a record for 2024-05-01 with
    people_looking 12 yields one snapshot dated 01.05.2024 without change;
    a second cycle that sees 20 reports a change of 8. *)
Example first_sight_then_change :
  let first := sample_cycle empty_history "01.05.2024 - 09:00:00"
                 (JList [sample_record "Ankara" "2024-05-01T00:00:00Z" 12]) in
  let second := sample_cycle (history_after first) "01.05.2024 - 09:05:00"
                  (JList [sample_record "Ankara" "2024-05-01T00:00:00Z" 20]) in
  signal_appointments (emitted first) = [sample_info "Ankara" "01.05.2024" 12 None] /\
  signal_appointments (emitted second)
    = [sample_info "Ankara" "01.05.2024" 20 (Some 8)].
Proof. vm_compute. by split. Qed.

(** A listing whose timestamps mix naive and aware values ends the cycle
    with an error signal. *)
Example mixed_timestamps_abort :
  emitted (sample_cycle empty_history "01.05.2024 - 09:00:00"
             (JList [JDict [("last_checked", JStr "2024-05-01T10:00:00Z")];
                     JDict [("last_checked", JStr "2024-05-01T10:00:00")]]))
  = error_signal "TypeError".
Proof. vm_compute. reflexivity. Qed.

(** The timestamp of a record of another route decides the upstream
    timestamp. *)
Example whole_feed_timestamp :
  emitted (sample_cycle empty_history "01.05.2024 - 09:00:00"
             (JList [other_route_record]))
  = update_signal {| current_time := "01.05.2024 - 09:00:00";
                     last_check := JNull;
                     api_last_checked := Some "01.05.2024 - 13:00:00";
                     appointments := [];
                     error := None |}.
Proof. vm_compute. reflexivity. Qed.

(** What the notifier posts for an empty list, with each of the two
    policies. *)
Example empty_list_dispatch :
  let result := {| current_time := "01.05.2024 - 09:00:00"; last_check := JNull;
                   api_last_checked := None; appointments := []; error := None |} in
  (handle_update (H := sample_runtime) quiet_settings result).2 = [] /\
  (handle_update (H := sample_runtime) sample_settings result).2 =
    [report_title +:+ nl +:+
     route_prefix +:+ "Turkey" +:+ route_arrow +:+ "Germany" +:+ nl +:+
     check_time_label +:+ "01.05.2024 - 09:00:00" +:+ nl +:+
     last_message_label +:+ "None" +:+ nl +:+ nl +:+
     no_appointments_footer].
Proof. vm_compute. by split. Qed.

Lemma filter_correctness_witness :
  sample_info "Ankara" "01.05.2024" 12 None
    ∈ signal_appointments
        (emitted (sample_cycle empty_history "01.05.2024 - 09:00:00"
                    (JList [other_route_record;
                            sample_record "Ankara" "2024-05-01T00:00:00Z" 12]))) /\
  exists d text apt_date,
    JDict d ∈ [other_route_record; sample_record "Ankara" "2024-05-01T00:00:00Z" 12] /\
    dict_get "source_country" d = Some (JStr "Turkey") /\
    dict_get "mission_country" d = Some (JStr "Germany") /\
    dict_get "appointment_date" d = Some (JStr text) /\
    strptime_Ymd (before "T"%char text) = Some apt_date /\
    clear_change (sample_info "Ankara" "01.05.2024" 12 None)
      = appointment_info (H := sample_runtime) d apt_date /\
    is_Some (history_appointments
               (history_after
                  (sample_cycle empty_history "01.05.2024 - 09:00:00"
                     (JList [other_route_record;
                             sample_record "Ankara" "2024-05-01T00:00:00Z" 12])))
             !! ("Turkey" +:+ "_" +:+ "Germany" +:+ "_"
                 +:+ strftime_Ymd (H := sample_runtime) apt_date)).
Proof.
  assert (Hin : sample_info "Ankara" "01.05.2024" 12 None
    ∈ signal_appointments
        (emitted (sample_cycle empty_history "01.05.2024 - 09:00:00"
                    (JList [other_route_record;
                            sample_record "Ankara" "2024-05-01T00:00:00Z" 12])))).
  { vm_compute. apply list_elem_of_here. }
  split; [exact Hin|].
  exact (filter_correctness (H := sample_runtime) sample_settings empty_history
           "01.05.2024 - 09:00:00" _ _ Hin).
Defined.




Lemma missing_required_field_dropped_witness :
  let listing := ([sample_record "Ankara" "2024-05-01" 12]
                  ++ JDict no_date_fields :: [sample_record "Ankara" "2024-06-01" 4])%list in
  let out := check_appointments (H := sample_runtime) sample_settings empty_history
               "01.05.2024 - 09:00:00" (Ok (JList listing)) in
  process_appointment (H := sample_runtime) sample_settings (∅, []) (JDict no_date_fields)
    = Ok (∅, []) /\
  (is_error (emitted out) = false ->
   process_all (H := sample_runtime) sample_settings
     (history_appointments empty_history, [])
     ([sample_record "Ankara" "2024-05-01" 12]
      ++ [sample_record "Ankara" "2024-06-01" 4])
   = ((history_appointments (history_after out), signal_appointments (emitted out)),
      None)).
Proof.
  intros listing out.
  apply (missing_required_field_dropped (H := sample_runtime) sample_settings
           empty_history "01.05.2024 - 09:00:00"
           [sample_record "Ankara" "2024-05-01" 12] no_date_fields
           [sample_record "Ankara" "2024-06-01" 4] "appointment_date" (∅, [])).
  - vm_compute. apply list_elem_of_further, list_elem_of_further, list_elem_of_here.
  - reflexivity.
Defined.

Lemma falsy_required_field_dropped_witness :
  let listing := ([sample_record "Ankara" "2024-05-01" 12]
                  ++ JDict empty_date_fields :: [sample_record "Ankara" "2024-06-01" 4])%list in
  let out := check_appointments (H := sample_runtime) sample_settings empty_history
               "01.05.2024 - 09:00:00" (Ok (JList listing)) in
  process_appointment (H := sample_runtime) sample_settings (∅, []) (JDict empty_date_fields)
    = Ok (∅, []) /\
  (is_error (emitted out) = false ->
   process_all (H := sample_runtime) sample_settings
     (history_appointments empty_history, [])
     ([sample_record "Ankara" "2024-05-01" 12]
      ++ [sample_record "Ankara" "2024-06-01" 4])
   = ((history_appointments (history_after out), signal_appointments (emitted out)),
      None)).
Proof.
  intros listing out.
  apply (falsy_required_field_dropped (H := sample_runtime) sample_settings
           empty_history "01.05.2024 - 09:00:00"
           [sample_record "Ankara" "2024-05-01" 12] empty_date_fields
           [sample_record "Ankara" "2024-06-01" 4] "appointment_date" (JStr "") (∅, [])).
  - vm_compute. apply list_elem_of_further, list_elem_of_further, list_elem_of_here.
  - reflexivity.
  - reflexivity.
Defined.

Lemma object_body_counterexample :
  is_list not_found_body = false /\
  emitted (sample_cycle empty_history "01.05.2024 - 09:00:00" not_found_body)
  = update_signal {| current_time := "01.05.2024 - 09:00:00";
                     last_check := JNull;
                     api_last_checked := None;
                     appointments := [];
                     error := None |}.
Proof. vm_compute. by split. Qed.

Lemma non_list_body_witness :
  (forall e, check_appointments (H := sample_runtime) sample_settings empty_history
               "01.05.2024 - 09:00:00" (Raise e)
             = failed (H := sample_runtime) empty_history e) /\
  check_appointments (H := sample_runtime) sample_settings empty_history
    "01.05.2024 - 09:00:00" (Ok not_found_body) =
  {| history_after := {| last_scan := Some (JStr "01.05.2024 - 09:00:00");
                         history_appointments := ∅ |};
     emitted := update_signal
       {| current_time := "01.05.2024 - 09:00:00";
          last_check := JNull;
          api_last_checked := None;
          appointments := [];
          error := None |};
     dumped := Some {| last_scan := Some (JStr "01.05.2024 - 09:00:00");
                       history_appointments := ∅ |} |}.
Proof.
  apply (non_list_body (H := sample_runtime) sample_settings empty_history
           "01.05.2024 - 09:00:00" not_found_body).
  reflexivity.
Defined.

Lemma listing_order_counterexample :
  let out := sample_cycle empty_history "01.05.2024 - 09:00:00" (JList june_then_may) in
  map date (signal_appointments (emitted out)) = ["01.06.2024"; "01.05.2024"] /\
  ordered_by_date (H := sample_runtime) (signal_appointments (emitted out)) = false.
Proof. vm_compute. by split. Qed.

Lemma handle_update_orders_by_date_witness :
  let result := signal_result
                  (emitted (sample_cycle empty_history "01.05.2024 - 09:00:00"
                              (JList june_then_may))) in
  let handled := handle_update (H := sample_runtime) sample_settings result in
  map clear_change (appointments result)
    = map snd (omap (normalise (H := sample_runtime) sample_settings) june_then_may) /\
  ordered_by_date (H := sample_runtime) (appointments handled.1) = true /\
  appointments handled.1 ≡ₚ appointments result /\
  handled.2 =
    [report_header (H := sample_runtime) sample_settings result +:+ available_label +:+
     pretty (Z.of_nat (length (appointments handled.1)))
     +:+ "):" +:+ nl +:+ nl +:+
     appointment_blocks (H := sample_runtime) (appointments handled.1)].
Proof.
  intros result handled.
  apply (handle_update_orders_by_date (H := sample_runtime) sample_settings
           empty_history "01.05.2024 - 09:00:00" june_then_may result).
  - vm_compute. reflexivity.
  - repeat constructor; vm_compute; eauto.
Defined.


(** * Further properties of the code *)

Section Cycle.

Context `{Runtime}.

Implicit Types (settings : Settings) (st : cycle_state).

(** ** What a cycle leaves behind *)

(** X1.  A cycle writes the history file and moves last_scan only when it
    emits a result: then the document handed to [json.dump] is the
    history it leaves, last_scan is the time of the cycle, the result
    shows the last_scan found before (the first-check label when the key
    was absent) and its error slot is empty.  A cycle that emits an error
    writes nothing and leaves last_scan as it was. *)
Theorem persist_only_on_success settings h now response :
  match emitted (check_appointments settings h now response) with
  | update_signal result =>
      dumped (check_appointments settings h now response)
        = Some (history_after (check_appointments settings h now response)) /\
      last_scan (history_after (check_appointments settings h now response))
        = Some (JStr now) /\
      last_check result = match last_scan h with
                          | Some v => v
                          | None => JStr first_check_label
                          end /\
      current_time result = now /\
      error result = None
  | error_signal _ =>
      dumped (check_appointments settings h now response) = None /\
      last_scan (history_after (check_appointments settings h now response))
        = last_scan h
  end.
Proof.
  unfold check_appointments.
  destruct response as [data|e]; [|by split].
  destruct (compute_api_last_checked data) as [api|e]; [|by split].
  destruct (py_iter data) as [records|e]; [|by split].
  destruct (process_all settings (history_appointments h, []) records)
    as [st [e|]]; cbn; by repeat split.
Qed.

(** The store a cycle leaves, whatever the response. *)
Lemma history_after_store settings h now response :
  history_appointments (history_after (check_appointments settings h now response))
    = history_appointments h \/
  exists records st oe,
    (forall data, response = Ok (JList data) -> records = data) /\
    process_all settings (history_appointments h, []) records = (st, oe) /\
    history_appointments (history_after (check_appointments settings h now response))
      = st.1.
Proof.
  unfold check_appointments.
  destruct response as [data|e]; [|by left].
  destruct (compute_api_last_checked data) as [api|e]; [|by left].
  destruct (py_iter data) as [records|e] eqn:Hiter; [|by left].
  right. exists records.
  destruct (process_all settings (history_appointments h, []) records)
    as [st oe] eqn:Hp.
  exists st, oe. split.
  - intros l [= ->]. by injection Hiter.
  - split; [done|]. by destruct oe.
Qed.

(** X2.  A cycle never removes a key from the store, whatever the
    response and whether it ends with a result or an error; and a key
    that no record of the listing yields keeps its snapshot. *)
Theorem store_only_grows settings h now response key j :
  history_appointments h !! key = Some j ->
  is_Some (history_appointments
             (history_after (check_appointments settings h now response)) !! key) /\
  forall data,
    response = Ok (JList data) ->
    (forall a k i, a ∈ data -> normalise settings a = Some (k, i) -> k <> key) ->
    history_appointments
      (history_after (check_appointments settings h now response)) !! key = Some j.
Proof.
  intros Hj.
  destruct (history_after_store settings h now response)
    as [-> | (records & st & oe & Hdata & Hp & ->)].
  { split; [eauto | done]. }
  split.
  - apply process_all_provenance in Hp as [_ Hstore].
    destruct (Hstore key) as [-> | (a & i0 & i & _ & _ & -> & _)]; simpl; eauto.
  - intros data Hresp Hother. rewrite <- Hj. specialize (Hdata data Hresp). subst records.
    by apply (process_all_frame settings key data _ _ _ Hother) in Hp.
Qed.

(** ** The annotation *)




(** The list a signal carries comes from a loop that ran to its end. *)
Lemma emitted_list_origin settings h now response i :
  i ∈ signal_appointments (emitted (check_appointments settings h now response)) ->
  exists records st,
    process_all settings (history_appointments h, []) records = (st, None) /\
    i ∈ st.2.
Proof.
  unfold check_appointments.
  destruct response as [data|e]; [|by intros ?%elem_of_nil].
  destruct (compute_api_last_checked data) as [api|e]; [|by intros ?%elem_of_nil].
  destruct (py_iter data) as [records|e]; [|by intros ?%elem_of_nil].
  destruct (process_all settings (history_appointments h, []) records)
    as [st [e|]] eqn:Hp; [by intros ?%elem_of_nil|].
  cbn. intros Hi. by exists records, st.
Qed.


Lemma annotate_unchanged (store : gmap string info) key i :
  store !! key = None \/
  (exists prev_info, store !! key = Some prev_info /\
                     py_eq (people_looking prev_info) (people_looking i) = true) ->
  annotate store key i = Ok i.
Proof.
  unfold annotate, py_ne. intros [-> | (prev & -> & ->)]; reflexivity.
Qed.

(** X4.  A record whose key is not in the store yet, or is there with an
    equal count, is emitted without people_looking_change, and its
    snapshot is what the store holds under the key afterwards (the
    record being the only one of the listing that yields the key). *)
Theorem unannotated_when_new_or_same
    settings h now l1 appointment l2 key i result :
  normalise settings appointment = Some (key, i) ->
  history_appointments h !! key = None \/
  (exists prev_info, history_appointments h !! key = Some prev_info /\
                     py_eq (people_looking prev_info) (people_looking i) = true) ->
  (forall a k j, a ∈ (l1 ++ l2)%list -> normalise settings a = Some (k, j) -> k <> key) ->
  emitted (check_appointments settings h now (Ok (JList (l1 ++ appointment :: l2))))
    = update_signal result ->
  i ∈ appointments result /\
  people_looking_change i = None /\
  history_appointments
    (history_after (check_appointments settings h now
                      (Ok (JList (l1 ++ appointment :: l2))))) !! key = Some i.
Proof.
  intros Hn Hstore Hother Hr.
  apply check_appointments_update in Hr as (store & Hp & -> & _).
  rewrite process_all_app in Hp.
  destruct (process_all settings (history_appointments h, []) l1)
    as [st1 [e|]] eqn:H1; [discriminate|].
  assert (Hst1 : st1.1 !! key = history_appointments h !! key).
  { apply (process_all_frame settings key l1 _ _ _) in H1; [done|].
    intros a k j Ha. apply Hother, elem_of_app. by left. }
  rewrite process_all_cons, Hn in Hp.
  rewrite annotate_unchanged in Hp by (by rewrite Hst1).
  pose proof (process_all_output_grows _ _ _ _ _ Hp) as [extra Hout].
  apply (process_all_frame settings key l2) in Hp.
  2:{ intros a k j Ha. apply Hother, elem_of_app. by right. }
  simpl in *. rewrite lookup_insert_eq in Hp.
  split; [|split; [|done]].
  - rewrite Hout. apply elem_of_app. left. apply elem_of_app. right.
    apply list_elem_of_here.
  - by apply normalise_inv in Hn as (? & ? & ? & _ & _ & _ & _ & _ & _ & ->).
Qed.

(** X5.  Two records of one listing that yield the same key are compared
    with each other: when the counts are A and then B, with no record of
    that key between them, the second snapshot is emitted with the change
    B - A, whatever the store held before the cycle. *)
Theorem later_record_compared_with_earlier
    settings h now l1 a l2 b l3 key ia ib A B result :
  normalise settings a = Some (key, ia) ->
  normalise settings b = Some (key, ib) ->
  people_looking ia = JInt A ->
  people_looking ib = JInt B ->
  A <> B ->
  (forall r k j, r ∈ l2 -> normalise settings r = Some (k, j) -> k <> key) ->
  emitted (check_appointments settings h now
             (Ok (JList (l1 ++ a :: l2 ++ b :: l3)))) = update_signal result ->
  set_change ib (B - A) ∈ appointments result.
Proof.
  intros Hna Hnb HA HB Hne Hother Hr.
  apply check_appointments_update in Hr as (store & Hp & _).
  rewrite process_all_app in Hp.
  destruct (process_all settings (history_appointments h, []) l1)
    as [st1 [e|]]; [discriminate|].
  rewrite process_all_cons, Hna in Hp.
  destruct (annotate st1.1 key ia) as [ia'|e] eqn:Ha; [|discriminate].
  rewrite process_all_app in Hp.
  destruct (process_all settings (<[key:=ia']> st1.1, (st1.2 ++ [ia'])%list) l2)
    as [st2 [e|]] eqn:H2; [discriminate|].
  apply (process_all_frame settings key l2 _ _ _ Hother) in H2.
  simpl in H2. rewrite lookup_insert_eq in H2.
  assert (Hcount : people_looking ia' = JInt A).
  { apply annotate_clear_change in Ha. rewrite <- HA.
    change (people_looking (clear_change ia') = people_looking (clear_change ia)).
    by rewrite Ha. }
  rewrite process_all_cons, Hnb in Hp.
  rewrite (annotate_changed _ _ _ _ _ _ H2 Hcount HB) in Hp by congruence.
  apply process_all_output_grows in Hp as [extra Hout]. simpl in Hout.
  rewrite Hout. apply elem_of_app. left. apply elem_of_app. right.
  apply list_elem_of_here.
Qed.

(** X6.  A record that raises in the comparison with the store ends the
    cycle there: the error is signalled, the snapshots of the records
    before it stay in the store in memory, the records after it are not
    looked at, nothing is written to the file and last_scan keeps its
    value. *)
Theorem failed_cycle_keeps_earlier_upserts
    settings h now l1 bad l2 api st1 key i prev_info e :
  compute_api_last_checked (JList (l1 ++ bad :: l2)) = Ok api ->
  process_all settings (history_appointments h, []) l1 = (st1, None) ->
  normalise settings bad = Some (key, i) ->
  st1.1 !! key = Some prev_info ->
  py_ne (people_looking prev_info) (people_looking i) = true ->
  py_sub (people_looking i) (people_looking prev_info) = Raise e ->
  check_appointments settings h now (Ok (JList (l1 ++ bad :: l2))) =
  {| history_after := {| last_scan := last_scan h; history_appointments := st1.1 |};
     emitted := error_signal (exn_str e);
     dumped := None |}.
Proof.
  intros Hapi H1 Hn Hprev Hne Hsub.
  unfold check_appointments. rewrite Hapi. cbn [py_iter].
  rewrite process_all_app, H1, process_all_cons, Hn.
  unfold annotate. rewrite Hprev, Hne, Hsub. reflexivity.
Qed.

(** ** Timestamps and the cycle *)

Lemma scan_times_mixed times : forall l,
  (exists t, t ∈ times /\ aware t <> aware l) ->
  scan_times (Some l) times = Raise TypeError.
Proof.
  induction times as [|a times IH]; intros l (t & Ht & Hkind).
  { by apply elem_of_nil in Ht. }
  cbn [scan_times]. unfold aware in Hkind.
  destruct (dt_gt a l) as [newer|e] eqn:Hcmp.
  - simpl. apply elem_of_cons in Ht as [-> | Ht].
    + exfalso. unfold dt_gt in Hcmp.
      destruct (utcoffset a), (utcoffset l); done.
    + destruct newer; apply IH; exists t; split; try done.
      unfold aware. unfold dt_gt in Hcmp.
      destruct (utcoffset a), (utcoffset l), (utcoffset t); done.
  - unfold dt_gt in Hcmp. by destruct (utcoffset a), (utcoffset l); simplify_eq.
Qed.

(** X7.  A listing that holds a parseable last_checked with an offset and
    one without ends the cycle with the TypeError of their comparison:
    the history is left as it was and nothing is written. *)
Theorem mixed_timestamps_fail settings h now data t_aware t_naive :
  t_aware ∈ parsed_times data ->
  t_naive ∈ parsed_times data ->
  aware t_aware = true ->
  aware t_naive = false ->
  check_appointments settings h now (Ok (JList data)) = failed h TypeError.
Proof.
  intros Ha Hn Haw Hnv.
  assert (Hscan : scan_times None (parsed_times data) = Raise TypeError).
  { destruct (parsed_times data) as [|first times]; [by apply elem_of_nil in Ha|].
    cbn [scan_times]. simpl. apply scan_times_mixed.
    destruct (aware first) eqn:Hfirst.
    - exists t_naive. split; [|congruence].
      apply elem_of_cons in Hn as [-> | Hn]; [congruence | done].
    - exists t_aware. split; [|congruence].
      apply elem_of_cons in Ha as [-> | Ha]; [congruence | done]. }
  unfold check_appointments, compute_api_last_checked.
  destruct data as [|a data]; [by apply elem_of_nil in Ha|].
  cbn [py_truthy]. by rewrite scan_last_checked_times, Hscan.
Qed.



(** ** The date of a record *)

Lemma before_app (day clock : string) :
  before "T"%char (day +:+ "T" +:+ clock) = before "T"%char day.
Proof.
  induction day as [|c day IH]; [reflexivity|].
  change (String c day +:+ "T" +:+ clock) with (String c (day +:+ "T" +:+ clock)).
  cbn [before]. destruct (Ascii.eqb c "T"%char); [reflexivity | by rewrite IH].
Qed.

Lemma dict_get_set_eq (k : string) (v : json) d :
  dict_get k (dict_set k v d) = Some v.
Proof.
  induction d as [|[k' v'] d IH]; simpl.
  - by rewrite String.eqb_refl.
  - destruct (String.eqb k' k) eqn:E; simpl; [by rewrite String.eqb_refl|].
    by rewrite E.
Qed.

Lemma dict_get_set_ne (k k2 : string) (v : json) d :
  k <> k2 -> dict_get k2 (dict_set k v d) = dict_get k2 d.
Proof.
  intros Hne. induction d as [|[k' v'] d IH]; simpl.
  - by apply String.eqb_neq in Hne as ->.
  - destruct (String.eqb k' k) eqn:E; simpl.
    + apply String.eqb_eq in E. subst k'.
      by apply String.eqb_neq in Hne as ->.
    + by rewrite IH.
Qed.

(** X9.  Only the part of appointment_date before its first T counts:
    two records that differ in nothing but the text after it yield the
    same key and the same snapshot. *)
Theorem time_of_day_ignored settings (d : list (string * json)) (day clock : string) :
  normalise settings
    (JDict (dict_set "appointment_date" (JStr (day +:+ "T" +:+ clock)) d)) =
  normalise settings (JDict (dict_set "appointment_date" (JStr day) d)).
Proof.
  unfold normalise, required_fields, appointment_info, py_get. cbn [forallb].
  rewrite !dict_get_set_eq, !dict_get_set_ne by done.
  unfold parse_appointment_date. rewrite before_app.
  destruct day as [|c day].
  - cbn. rewrite !andb_false_r. cbn.
    by destruct (_ && _).
  - reflexivity.
Qed.

End Cycle.

Section Notifier.

Context `{Runtime}.

Implicit Types (settings : Settings).


Lemma filter_shows_date (k : civil) (keyed : list (civil * info)) :
  Forall (fun kx => sort_key kx.2 = Ok kx.1) keyed ->
  List.filter (shows_date k) (map snd keyed) =
  map snd (List.filter (fun y => date_eqb y.1 k) keyed).
Proof.
  induction 1 as [|[d x] keyed Hk _ IH]; [reflexivity|].
  cbn [map List.filter snd fst]. rewrite IH.
  unfold sort_key in Hk. simpl in Hk. unfold shows_date.
  destruct (strptime_dmY (date x)) as [d'|]; [|discriminate].
  injection Hk as ->. by destruct (date_eqb d k).
Qed.

(** X11.  The sort of [handle_update] keeps the snapshots of one date in
    the order they had: for each date, the snapshots that show it come
    out as they went in. *)
Theorem sort_keeps_order_within_date (l sorted : list info) (k : civil) :
  sort_appointments l = Ok sorted ->
  List.filter (shows_date k) sorted = List.filter (shows_date k) l.
Proof.
  unfold sort_appointments.
  destruct (with_keys l) as [keyed|e] eqn:Hk; [|discriminate].
  simpl. intros [= <-].
  destruct (with_keys_ok _ _ Hk) as [Hm Hf].
  rewrite filter_shows_date by (by rewrite sort_by_key_perm).
  rewrite sort_by_key_stable, <- filter_shows_date by done.
  by rewrite Hm.
Qed.

(** X12.  Whatever the response, a cycle makes the notifier post one
    message at most.  A cycle that fails is always reported, with the
    error label before its text; only a result without snapshots, under
    the policy that sends news only, is passed over in silence. *)
Theorem one_message_per_cycle settings h now response :
  match emitted (check_appointments settings h now response) with
  | error_signal msg =>
      dispatch settings (emitted (check_appointments settings h now response))
        = [error_label +:+ msg]
  | update_signal result =>
      (length (dispatch settings
                 (emitted (check_appointments settings h now response))) <= 1)%nat /\
      (dispatch settings (emitted (check_appointments settings h now response)) = []
       <-> appointments result = [] /\ send_all_updates settings = false)
  end.
Proof.
  destruct (emitted _) as [result|msg]; [|reflexivity].
  unfold dispatch, handle_update.
  destruct (appointments result) as [|apt rest].
  - destruct (send_all_updates settings); simpl; split; try lia; split; try done.
    by intros [_ ?].
  - destruct (sort_appointments (apt :: rest)); simpl; split; try lia;
      split; try done; by intros [? _].
Qed.

End Notifier.

Section Worker.

Context `{Runtime}.

Implicit Types (settings : Settings).

Lemma sleep_loop_clear (stopped : nat -> bool) seconds : forall reading,
  (forall n, (reading <= n < reading + seconds)%nat -> stopped n = false) ->
  sleep_loop stopped reading seconds = ((reading + seconds)%nat, sleeps_from reading seconds).
Proof.
  induction seconds as [|seconds IH]; intros reading Hclear.
  - cbn. by rewrite Nat.add_0_r.
  - cbn [sleep_loop]. rewrite Hclear by lia.
    rewrite IH by (intros n Hn; apply Hclear; lia).
    unfold sleeps_from. cbn [seq map]. f_equal. lia.
Qed.

(** X13.  While the stop flag reads clear, the worker runs a cycle at
    once and then sleeps check_interval times one second before it turns
    to the next cycle. *)
Theorem interval_between_cycles settings (stopped : nat -> bool) fuel reading :
  (forall n, (reading <= n <= reading + check_interval settings)%nat ->
     stopped n = false) ->
  run settings (S fuel) stopped reading =
  match run settings fuel stopped (S reading + check_interval settings) with
  | Some rest =>
      Some (cycle_step reading ::
            sleeps_from (S reading) (check_interval settings) ++ rest)%list
  | None => None
  end.
Proof.
  intros Hclear. cbn [run]. rewrite Hclear by lia.
  rewrite sleep_loop_clear by (intros n Hn; apply Hclear; lia).
  reflexivity.
Qed.

(** X14.  Once the stop flag is set the worker loop returns: if every
    reading from the [r]-th on finds it set, the loop has ended by then,
    after [r] turns at most. *)
Theorem worker_stops settings (stopped : nat -> bool) (r : nat) :
  (forall n, (r <= n)%nat -> stopped n = true) ->
  exists steps,
    run settings (S r) stopped 0 = Some steps /\
    Forall (fun s => (step_reading s < r)%nat) steps.
Proof.
  intros Hset.
  assert (Hfuel : (r <= 0 + r)%nat) by lia.
  destruct (run_terminates settings stopped r Hset r 0%nat Hfuel) as [steps Hrun].
  exists steps. split; [done|].
  apply run_steps_clear in Hrun. eapply Forall_impl; [exact Hrun|].
  simpl. intros s [_ Hs].
  destruct (Nat.lt_ge_cases (step_reading s) r) as [|Hge]; [done|].
  rewrite (Hset _ Hge) in Hs. discriminate.
Qed.

End Worker.

Section StartUp.

Context `{Runtime}.

(** ** The settings file *)

Lemma lookup_list_to_map_dict_get (d : list (string * json)) (k : string) :
  (list_to_map d : gmap string json) !! k = dict_get k d.
Proof.
  induction d as [|[k' v] d IH]; [apply lookup_empty|].
  cbn [list_to_map foldr dict_get]. simpl.
  destruct (String.eqb_spec k' k) as [->|Hne].
  - apply lookup_insert_eq.
  - by rewrite lookup_insert_ne.
Qed.

(** X16.  After [load_settings] every key the tracker subscripts is in
    the settings, whatever keys the saved file holds: a saved value
    replaces the default, a key the file lacks keeps its default, and
    the file is written only when it was missing. *)
Theorem loaded_settings_complete file s written :
  load_settings file = Ok (s, written) ->
  (forall k, k ∈ keys_read -> is_Some (s !! k)) /\
  (forall k, s !! k =
     match file with
     | Some (Ok saved_settings) =>
         match dict_get k saved_settings with
         | Some v => Some v
         | None => dict_get k default_settings
         end
     | _ => dict_get k default_settings
     end) /\
  written = match file with None => Some s | _ => None end.
Proof.
  intros Hload.
  assert (Hlookup : forall k, s !! k =
     match file with
     | Some (Ok saved_settings) =>
         match dict_get k saved_settings with
         | Some v => Some v
         | None => dict_get k default_settings
         end
     | _ => dict_get k default_settings
     end).
  { intros k.
    assert (Hs : s = match file with
                     | Some (Ok saved_settings) =>
                         list_to_map saved_settings ∪ list_to_map default_settings
                     | _ => list_to_map default_settings
                     end).
    { unfold load_settings in Hload. destruct file as [[saved|e]|]; congruence. }
    rewrite Hs. destruct file as [[saved|e]|];
      try apply lookup_list_to_map_dict_get.
    rewrite lookup_union, !lookup_list_to_map_dict_get.
    destruct (dict_get k saved), (dict_get k default_settings); reflexivity. }
  split; [|split; [done|]].
  - intros k Hk. rewrite Hlookup.
    assert (Hdef : is_Some (dict_get k default_settings)).
    { unfold keys_read in Hk. repeat (apply elem_of_cons in Hk as [-> | Hk]; [by eexists|]).
      by apply elem_of_nil in Hk. }
    destruct file as [[saved|e]|]; [|done..].
    destruct (dict_get k saved); [eauto | done].
  - unfold load_settings in Hload.
    destruct file as [[saved|e]|]; [|discriminate|]; by injection Hload as <- <-.
Qed.

(** ** The history file *)

(** X17.  On a start without a history file the history is created with
    last_scan null and written out; the first result then shows null
    (printed None) as the previous check, not the first-check label,
    which is only used when the key itself is absent. *)
Theorem fresh_history_shows_none settings now response h written result :
  load_scan_history None = Ok (h, written) ->
  emitted (check_appointments settings h now response) = update_signal result ->
  written = Some h /\
  last_check result = JNull /\
  py_format (last_check result) = "None".
Proof.
  intros [= <- <-]. unfold check_appointments.
  destruct response as [data|e]; [|discriminate].
  destruct (compute_api_last_checked data) as [api|e]; [|discriminate].
  destruct (py_iter data) as [records|e]; [|discriminate].
  destruct (process_all settings _ records) as [st [e|]]; [discriminate|].
  cbn. intros [= <-]. by repeat split.
Qed.

(** ** The list of countries *)

Lemma insert_country_elem (c c' : string) (l : list string) :
  c' ∈ insert_country c l <-> c' = c \/ c' ∈ l.
Proof.
  induction l as [|x l IH]; cbn [insert_country].
  - rewrite list_elem_of_singleton, elem_of_nil. tauto.
  - destruct (String.compare c x) eqn:Hcmp.
    + apply String.compare_eq_iff in Hcmp. subst x. rewrite !elem_of_cons. tauto.
    + rewrite !elem_of_cons. tauto.
    + rewrite !elem_of_cons, IH. tauto.
Qed.

Lemma sorted_set_elem (c : string) (names : list string) :
  c ∈ sorted_set names <-> c ∈ names.
Proof.
  induction names as [|n names IH]; [done|].
  unfold sorted_set in *. cbn [foldr]. rewrite insert_country_elem, IH, elem_of_cons. tauto.
Qed.

Lemma insert_country_hd (c x : string) (l : list string) :
  String.compare x c = Lt ->
  HdRel (fun a b => String.compare a b = Lt) x l ->
  HdRel (fun a b => String.compare a b = Lt) x (insert_country c l).
Proof.
  intros Hxc Hhd. destruct l as [|y l]; cbn [insert_country]; [by constructor|].
  destruct (String.compare c y); [done | by constructor |].
  constructor. by apply HdRel_inv in Hhd.
Qed.

Lemma insert_country_sorted (c : string) (l : list string) :
  Sorted (fun a b => String.compare a b = Lt) l ->
  Sorted (fun a b => String.compare a b = Lt) (insert_country c l).
Proof.
  induction 1 as [|x l Hsorted IH Hhd]; cbn [insert_country].
  - by repeat constructor.
  - destruct (String.compare c x) eqn:Hcmp.
    + by constructor.
    + constructor; [by constructor | by constructor].
    + constructor; [done|]. apply insert_country_hd; [|done].
      rewrite String.compare_antisym, Hcmp. reflexivity.
Qed.

Lemma sorted_set_sorted (names : list string) :
  Sorted (fun a b => String.compare a b = Lt) (sorted_set names).
Proof.
  induction names as [|n names IH]; [constructor|].
  unfold sorted_set in *. cbn [foldr]. by apply insert_country_sorted.
Qed.

(** X18.  Whatever the file of examples holds, and whether it can be read
    or not, the list of countries holds Poland and is in strictly
    ascending order, so without duplicates. *)
Theorem countries_sorted_with_poland (file : option (res json)) :
  "Poland" ∈ load_countries file /\
  Sorted (fun a b => String.compare a b = Lt) (load_countries file).
Proof.
  unfold load_countries.
  assert (Hone : "Poland" ∈ ["Poland"] /\
                 Sorted (fun a b => String.compare a b = Lt) ["Poland"]).
  { split; [apply list_elem_of_here | by repeat constructor]. }
  destruct file as [[data|e]|]; [|done..].
  destruct (countries_of data) as [names|e]; [|done].
  split; [|apply sorted_set_sorted].
  apply sorted_set_elem, list_elem_of_here.
Qed.

Lemma subscript_all_elem (key : string) (items : list json) : forall values,
  subscript_all key items = Ok values ->
  forall item, item ∈ items ->
  exists v, py_subscript item key = Ok v /\ v ∈ values.
Proof.
  induction items as [|first items IH]; intros values Hall item Hitem.
  { by apply elem_of_nil in Hitem. }
  cbn [subscript_all] in Hall.
  destruct (py_subscript first key) as [v|e] eqn:Hv; [|discriminate].
  destruct (subscript_all key items) as [vs|e]; [|discriminate].
  simpl in Hall. injection Hall as <-.
  apply elem_of_cons in Hitem as [-> | Hitem].
  - exists v. split; [done | apply list_elem_of_here].
  - destruct (IH vs eq_refl item Hitem) as (w & Hw & Hin).
    exists w. split; [done | by apply list_elem_of_further].
Qed.

Lemma country_names_elem (values : list json) : forall names,
  country_names values = Ok names ->
  forall v, v ∈ values -> exists c, v = JStr c /\ c ∈ names.
Proof.
  induction values as [|first values IH]; intros names Hall v Hv.
  { by apply elem_of_nil in Hv. }
  cbn [country_names] in Hall.
  destruct first as [| | |c| |]; try discriminate.
  destruct (country_names values) as [ns|e]; [|discriminate].
  simpl in Hall. injection Hall as <-.
  apply elem_of_cons in Hv as [-> | Hv].
  - exists c. split; [done | apply list_elem_of_here].
  - destruct (IH ns eq_refl v Hv) as (c' & -> & Hin).
    exists c'. split; [done | by apply list_elem_of_further].
Qed.

(** X19.  When the file of examples is read without error, the list
    offers the source country and the mission country of every item of
    the file. *)
Theorem countries_cover_file (items : list json) (names : list string) d :
  countries_of (JList items) = Ok names ->
  JDict d ∈ items ->
  exists source mission,
    dict_get "source_country" d = Some (JStr source) /\
    dict_get "mission_country" d = Some (JStr mission) /\
    source ∈ load_countries (Some (Ok (JList items))) /\
    mission ∈ load_countries (Some (Ok (JList items))).
Proof.
  intros Hnames Hd. unfold load_countries. rewrite Hnames.
  unfold countries_of in Hnames. cbn [py_iter] in Hnames. simpl in Hnames.
  destruct (subscript_all "source_country" items) as [sources|e] eqn:Hs; [|discriminate].
  destruct (subscript_all "mission_country" items) as [missions|e] eqn:Hm; [|discriminate].
  simpl in Hnames.
  destruct (subscript_all_elem _ _ _ Hs _ Hd) as (vs & Hvs & Hins).
  destruct (subscript_all_elem _ _ _ Hm _ Hd) as (vm & Hvm & Hinm).
  destruct (country_names_elem _ _ Hnames vs) as (source & -> & Hsource).
  { apply elem_of_app. by left. }
  destruct (country_names_elem _ _ Hnames vm) as (mission & -> & Hmission).
  { apply elem_of_app. by right. }
  exists source, mission. unfold py_subscript, dict_index in Hvs, Hvm.
  destruct (dict_get "source_country" d) as [v1|]; [|discriminate].
  destruct (dict_get "mission_country" d) as [v2|]; [|discriminate].
  injection Hvs as ->. injection Hvm as ->.
  repeat split; try done; apply sorted_set_elem; by apply list_elem_of_further.
Qed.

Lemma subscript_all_fails (key : string) (items : list json) item e :
  item ∈ items -> py_subscript item key = Raise e ->
  exists e', subscript_all key items = Raise e'.
Proof.
  induction items as [|first items IH]; intros Hitem Hfail.
  { by apply elem_of_nil in Hitem. }
  cbn [subscript_all].
  apply elem_of_cons in Hitem as [<- | Hitem]; [rewrite Hfail; simpl; eauto|].
  destruct (py_subscript first key); simpl; [|eauto].
  destruct (IH Hitem Hfail) as [e' ->]. simpl. eauto.
Qed.

(** X20.  One item without a source_country, or one item that is not an
    object, discards the whole file of examples: the list of countries is
    then Poland alone. *)
Theorem one_bad_item_discards_file (items : list json) item e :
  item ∈ items ->
  py_subscript item "source_country" = Raise e ->
  load_countries (Some (Ok (JList items))) = ["Poland"].
Proof.
  intros Hitem Hfail. unfold load_countries, countries_of. cbn [py_iter]. simpl.
  destruct (subscript_all_fails _ _ _ _ Hitem Hfail) as [e' ->]. reflexivity.
Qed.

(** ** The interval of the settings form *)

(** X21.  What the form shows after a save is what was entered: an
    interval between 1 and 3600, in seconds or in minutes, is stored in
    seconds with its unit and comes back as the same number in the same
    unit. *)
Theorem interval_round_trip (interval : Z) (unit_text : string) :
  1 <= interval <= 3600 ->
  unit_text = "Saniye" \/ unit_text = "Dakika" ->
  interval_shown (interval_saved interval unit_text).1
                 (interval_saved interval unit_text).2 = (interval, unit_text) /\
  (interval_saved interval unit_text).1 =
    (if String.eqb unit_text "Dakika" then 60 * interval else interval) /\
  1 <= (interval_saved interval unit_text).1.
Proof.
  intros Hrange [-> | ->]; unfold interval_saved, interval_shown, spin_value; simpl.
  - repeat split; [f_equal|]; lia.
  - rewrite Z.div_mul by lia. repeat split; [f_equal|..]; lia.
Qed.

End StartUp.

Section Filter.

Context `{Runtime}.

Implicit Types (settings : Settings) (st : cycle_state) (d : list (string * json)).

(** ** What the filter lets through and what it passes over *)

Lemma normalise_matching settings d text apt_date :
  source_country settings <> "" ->
  mission_country settings <> "" ->
  dict_get "source_country" d = Some (JStr (source_country settings)) ->
  dict_get "mission_country" d = Some (JStr (mission_country settings)) ->
  dict_get "appointment_date" d = Some (JStr text) ->
  strptime_Ymd (before "T"%char text) = Some apt_date ->
  exists key, normalise settings (JDict d) = Some (key, appointment_info d apt_date).
Proof.
  intros Hs Hm Gs Gm Gd Hparse.
  assert (Htext : text <> "").
  { intros ->. discriminate. }
  unfold normalise, py_get. cbn [forallb required_fields]. rewrite Gs, Gm, Gd. simpl.
  apply String.eqb_neq in Hs, Hm, Htext. rewrite Hs, Hm, Htext, !String.eqb_refl.
  simpl. rewrite Hparse. eauto.
Qed.

(** X22.  No matching record is missed: a record whose countries are
    those of the settings (both set) and whose date parses has its
    snapshot in the list the cycle emits. *)
Theorem matching_record_is_emitted settings h now data d text apt_date result :
  source_country settings <> "" ->
  mission_country settings <> "" ->
  JDict d ∈ data ->
  dict_get "source_country" d = Some (JStr (source_country settings)) ->
  dict_get "mission_country" d = Some (JStr (mission_country settings)) ->
  dict_get "appointment_date" d = Some (JStr text) ->
  strptime_Ymd (before "T"%char text) = Some apt_date ->
  emitted (check_appointments settings h now (Ok (JList data))) = update_signal result ->
  exists i, i ∈ appointments result /\ clear_change i = appointment_info d apt_date.
Proof.
  intros Hs Hm Hd Gs Gm Gd Hparse Hr.
  destruct (normalise_matching settings d text apt_date Hs Hm Gs Gm Gd Hparse)
    as [key Hn].
  apply check_appointments_update in Hr as (store & Hp & _).
  apply process_all_order in Hp; [|done]. simpl in Hp.
  assert (Hin : appointment_info d apt_date
                ∈ map clear_change (appointments result)).
  { rewrite Hp. apply (list_elem_of_fmap_2' snd _ (key, appointment_info d apt_date));
      [|done].
    apply list_elem_of_omap. by exists (JDict d). }
  apply list_elem_of_fmap in Hin as (i & Hi & Hin). by exists i.
Qed.

Lemma normalise_unset settings appointment :
  source_country settings = "" \/ mission_country settings = "" ->
  normalise settings appointment = None.
Proof.
  intros Hunset. destruct appointment as [| | | |l|d]; try reflexivity.
  unfold normalise.
  destruct (forallb _ required_fields) eqn:Hreq; [|reflexivity].
  simpl in Hreq.
  destruct (py_truthy (py_get d "source_country" JNull)) eqn:Hs; [|discriminate].
  destruct (py_truthy (py_get d "mission_country" JNull)) eqn:Hm; [|discriminate].
  cbn [andb].
  destruct (py_eq (py_get d "source_country" JNull) _) eqn:Es; [|reflexivity].
  destruct (py_eq (py_get d "mission_country" JNull) _) eqn:Em; [|reflexivity].
  apply py_eq_JStr in Es, Em. rewrite Es in Hs. rewrite Em in Hm.
  destruct Hunset as [E|E]; rewrite E in *; discriminate.
Qed.

Lemma process_all_none settings st records :
  (forall appointment, appointment ∈ records -> normalise settings appointment = None) ->
  process_all settings st records = (st, None).
Proof.
  induction records as [|a records IH]; intros Hnone; [reflexivity|].
  rewrite process_all_cons, (Hnone a) by apply list_elem_of_here.
  apply IH. intros b Hb. apply Hnone. by apply list_elem_of_further.
Qed.

(** X23.  While one of the two countries of the settings is the empty
    text, as both are before a first save, no record matches: whatever
    the endpoint answers, no cycle emits a snapshot. *)
Theorem unset_country_matches_nothing settings h now response :
  source_country settings = "" \/ mission_country settings = "" ->
  signal_appointments (emitted (check_appointments settings h now response)) = [].
Proof.
  intros Hunset. apply elem_of_nil_inv. intros i Hi.
  apply emitted_list_origin in Hi as (records & st & Hp & Hi).
  rewrite process_all_none in Hp by (intros; by apply normalise_unset).
  injection Hp as <-. by apply elem_of_nil in Hi.
Qed.


(** X25.  A record of another route, one whose source or mission country
    differs from the settings, is passed over in the same way. *)
Theorem other_route_passed_over settings st d :
  py_eq (py_get d "source_country" JNull) (JStr (source_country settings)) = false \/
  py_eq (py_get d "mission_country" JNull) (JStr (mission_country settings)) = false ->
  process_appointment settings st (JDict d) = Ok st /\
  forall l1 l2,
    process_all settings st (l1 ++ JDict d :: l2) = process_all settings st (l1 ++ l2).
Proof.
  intros Hother.
  assert (Hn : normalise settings (JDict d) = None).
  { unfold normalise. destruct Hother as [-> | ->];
      by rewrite ?andb_false_r. }
  split.
  - by rewrite process_appointment_normalise, Hn.
  - intros l1 l2. by apply process_all_skip.
Qed.

End Filter.

(** * Concrete runs of the further properties *)

Lemma store_only_grows_witness :
  let out := sample_cycle seen_history "01.05.2024 - 09:05:00"
               (JList [sample_record "Ankara" "2024-06-01" 4]) in
  is_Some (history_appointments (history_after out) !! "Turkey_Germany_2024-05-01") /\
  forall data,
    Ok (JList [sample_record "Ankara" "2024-06-01" 4]) = Ok (JList data) ->
    (forall a k i, a ∈ data ->
       normalise (H := sample_runtime) sample_settings a = Some (k, i) ->
       k <> "Turkey_Germany_2024-05-01") ->
    history_appointments (history_after out) !! "Turkey_Germany_2024-05-01"
      = Some (sample_info "Ankara" "01.05.2024" 12 None).
Proof.
  intros out.
  apply (store_only_grows (H := sample_runtime) sample_settings seen_history
           "01.05.2024 - 09:05:00" (Ok (JList [sample_record "Ankara" "2024-06-01" 4]))
           "Turkey_Germany_2024-05-01" (sample_info "Ankara" "01.05.2024" 12 None)).
  vm_compute. reflexivity.
Defined.


Lemma unannotated_when_new_or_same_witness :
  let out := sample_cycle seen_history "01.05.2024 - 09:05:00"
               (JList ([other_route_record]
                       ++ sample_record "Istanbul" "2024-05-01" 12 :: [])) in
  sample_info "Istanbul" "01.05.2024" 12 None
    ∈ appointments (signal_result (emitted out)) /\
  people_looking_change (sample_info "Istanbul" "01.05.2024" 12 None) = None /\
  history_appointments (history_after out) !! "Turkey_Germany_2024-05-01"
    = Some (sample_info "Istanbul" "01.05.2024" 12 None).
Proof.
  intros out.
  apply (unannotated_when_new_or_same (H := sample_runtime) sample_settings seen_history
           "01.05.2024 - 09:05:00" [other_route_record]
           (sample_record "Istanbul" "2024-05-01" 12) []
           "Turkey_Germany_2024-05-01"
           (sample_info "Istanbul" "01.05.2024" 12 None)
           (signal_result (emitted out))).
  - vm_compute. reflexivity.
  - right. exists (sample_info "Ankara" "01.05.2024" 12 None).
    split; vm_compute; reflexivity.
  - intros a k j Ha. apply list_elem_of_singleton in Ha. subst a.
    vm_compute. discriminate.
  - vm_compute. reflexivity.
Defined.

Lemma later_record_compared_with_earlier_witness :
  set_change (sample_info "Istanbul" "01.05.2024" 7 None) (7 - 5)
    ∈ appointments
        (signal_result
           (emitted (sample_cycle seen_history "01.05.2024 - 09:05:00"
                       (JList ([] ++ sample_record "Ankara" "2024-05-01" 5
                                  :: [other_route_record]
                                  ++ sample_record "Istanbul" "2024-05-01" 7 :: []))))).
Proof.
  apply (later_record_compared_with_earlier (H := sample_runtime) sample_settings
           seen_history "01.05.2024 - 09:05:00"
           [] (sample_record "Ankara" "2024-05-01" 5)
           [other_route_record] (sample_record "Istanbul" "2024-05-01" 7) []
           "Turkey_Germany_2024-05-01"
           (sample_info "Ankara" "01.05.2024" 5 None)
           (sample_info "Istanbul" "01.05.2024" 7 None) 5 7).
  - vm_compute. reflexivity.
  - vm_compute. reflexivity.
  - reflexivity.
  - reflexivity.
  - lia.
  - intros r k j Hr. apply list_elem_of_singleton in Hr. subst r.
    vm_compute. discriminate.
  - vm_compute. reflexivity.
Defined.

Lemma failed_cycle_keeps_earlier_upserts_witness :
  let st1 := (process_all (H := sample_runtime) sample_settings
                (history_appointments seen_history, [])
                [sample_record "Ankara" "2024-06-01" 4]).1 in
  check_appointments (H := sample_runtime) sample_settings seen_history
    "01.05.2024 - 09:05:00"
    (Ok (JList ([sample_record "Ankara" "2024-06-01" 4]
                ++ text_count_record :: [sample_record "Ankara" "2024-07-01" 1]))) =
  {| history_after := {| last_scan := last_scan seen_history;
                         history_appointments := st1.1 |};
     emitted := error_signal (exn_str (Runtime := sample_runtime) TypeError);
     dumped := None |}.
Proof.
  intros st1.
  apply (failed_cycle_keeps_earlier_upserts (H := sample_runtime) sample_settings
           seen_history "01.05.2024 - 09:05:00"
           [sample_record "Ankara" "2024-06-01" 4] text_count_record
           [sample_record "Ankara" "2024-07-01" 1] None st1
           "Turkey_Germany_2024-05-01"
           {| date := "01.05.2024"; center := JStr unspecified_label;
              visa_category := JStr unspecified_label;
              visa_subcategory := JStr unspecified_label;
              people_looking := JStr "many"; link := JStr "#";
              people_looking_change := None |}
           (sample_info "Ankara" "01.05.2024" 12 None) TypeError).
  - vm_compute. reflexivity.
  - vm_compute. reflexivity.
  - vm_compute. reflexivity.
  - vm_compute. reflexivity.
  - reflexivity.
  - reflexivity.
Defined.

Lemma mixed_timestamps_fail_witness :
  check_appointments (H := sample_runtime) sample_settings seen_history
    "01.05.2024 - 09:05:00" (Ok (JList mixed_timestamps))
  = failed (H := sample_runtime) seen_history TypeError.
Proof.
  apply (mixed_timestamps_fail (H := sample_runtime) sample_settings seen_history
           "01.05.2024 - 09:05:00" mixed_timestamps
           (mkdatetime (739006 * us_per_day + 36000 * us_per_second) (Some 0))
           (mkdatetime (739006 * us_per_day + 36000 * us_per_second) None)).
  - vm_compute. apply list_elem_of_here.
  - vm_compute. apply list_elem_of_further, list_elem_of_here.
  - reflexivity.
  - reflexivity.
Defined.



Lemma sort_keeps_order_within_date_witness :
  let l := [sample_info "Ankara" "01.06.2024" 9 None;
            sample_info "Ankara" "01.05.2024" 5 None;
            sample_info "Istanbul" "01.05.2024" 7 None] in
  let sorted := [sample_info "Ankara" "01.05.2024" 5 None;
                 sample_info "Istanbul" "01.05.2024" 7 None;
                 sample_info "Ankara" "01.06.2024" 9 None] in
  List.filter (shows_date (mkcivil 2024 5 1)) sorted
  = List.filter (shows_date (mkcivil 2024 5 1)) l.
Proof.
  intros l sorted.
  apply (sort_keeps_order_within_date l sorted (mkcivil 2024 5 1)).
  vm_compute. reflexivity.
Defined.

Lemma interval_between_cycles_witness :
  run quick_settings 2 (stopped_from 3) 0 =
  match run quick_settings 1 (stopped_from 3) 3 with
  | Some rest => Some (cycle_step 0 :: sleeps_from 1 2 ++ rest)%list
  | None => None
  end.
Proof.
  apply (interval_between_cycles quick_settings (stopped_from 3) 1 0).
  intros n Hn. unfold stopped_from. apply Nat.leb_gt. simpl in Hn. lia.
Defined.

Lemma worker_stops_witness :
  exists steps,
    run quick_settings 3 (stopped_from 2) 0 = Some steps /\
    Forall (fun s => (step_reading s < 2)%nat) steps.
Proof.
  apply (worker_stops quick_settings (stopped_from 2) 2).
  intros n Hn. unfold stopped_from. by apply Nat.leb_le.
Defined.

Lemma run_after_stop_witness :
  (length (List.filter (fun s => (1 <=? step_reading s)%nat)
             [cycle_step 0; sleep_step 1]) <= 1)%nat.
Proof.
  apply (run_after_stop quick_settings (stopped_from 2) 3 1
           [cycle_step 0; sleep_step 1]).
  - intros n Hn. unfold stopped_from in Hn. apply Nat.leb_gt in Hn. lia.
  - vm_compute. reflexivity.
Defined.

Lemma loaded_settings_complete_witness :
  let s : gmap string json :=
    list_to_map old_settings_file ∪ list_to_map default_settings in
  (forall k, k ∈ keys_read -> is_Some (s !! k)) /\
  (forall k, s !! k = match dict_get k old_settings_file with
                      | Some v => Some v
                      | None => dict_get k default_settings
                      end) /\
  (None : option (gmap string json)) = None.
Proof.
  intros s.
  apply (loaded_settings_complete (Some (Ok old_settings_file)) s None).
  reflexivity.
Defined.

Lemma fresh_history_shows_none_witness :
  let result := signal_result
                  (emitted (sample_cycle empty_history "01.05.2024 - 09:00:00"
                              (JList two_centres))) in
  Some empty_history = Some empty_history /\
  last_check result = JNull /\
  py_format (H := sample_runtime) (last_check result) = "None".
Proof.
  intros result.
  apply (fresh_history_shows_none (H := sample_runtime) sample_settings
           "01.05.2024 - 09:00:00" (Ok (JList two_centres))
           empty_history (Some empty_history) result).
  - reflexivity.
  - vm_compute. reflexivity.
Defined.

Lemma countries_cover_file_witness :
  exists source mission,
    dict_get "source_country" turkey_germany = Some (JStr source) /\
    dict_get "mission_country" turkey_germany = Some (JStr mission) /\
    source ∈ load_countries (Some (Ok (JList examples_file))) /\
    mission ∈ load_countries (Some (Ok (JList examples_file))).
Proof.
  apply (countries_cover_file examples_file
           ["Turkey"; "Turkey"; "Germany"; "Austria"] turkey_germany).
  - vm_compute. reflexivity.
  - apply list_elem_of_here.
Defined.

Lemma one_bad_item_discards_file_witness :
  load_countries (Some (Ok (JList broken_examples_file))) = ["Poland"].
Proof.
  apply (one_bad_item_discards_file broken_examples_file
           (JDict [("mission_country", JStr "France")]) KeyError).
  - apply list_elem_of_further, list_elem_of_here.
  - reflexivity.
Defined.

Lemma interval_round_trip_witness :
  interval_shown (interval_saved 5 "Dakika").1 (interval_saved 5 "Dakika").2
    = (5, "Dakika") /\
  (interval_saved 5 "Dakika").1 = (if String.eqb "Dakika" "Dakika" then 60 * 5 else 5) /\
  1 <= (interval_saved 5 "Dakika").1.
Proof.
  apply (interval_round_trip 5 "Dakika"); [lia | by right].
Defined.

Lemma matching_record_is_emitted_witness :
  let result := signal_result
                  (emitted (sample_cycle seen_history "01.05.2024 - 09:05:00"
                              (JList [other_route_record;
                                      sample_record "Ankara" "2024-05-01T00:00:00" 5]))) in
  exists i, i ∈ appointments result /\
            clear_change i =
            appointment_info (H := sample_runtime)
              (sample_fields "Ankara" "2024-05-01T00:00:00" 5) (mkcivil 2024 5 1).
Proof.
  intros result.
  apply (matching_record_is_emitted (H := sample_runtime) sample_settings seen_history
           "01.05.2024 - 09:05:00"
           [other_route_record; sample_record "Ankara" "2024-05-01T00:00:00" 5]
           (sample_fields "Ankara" "2024-05-01T00:00:00" 5)
           "2024-05-01T00:00:00" (mkcivil 2024 5 1) result).
  - discriminate.
  - discriminate.
  - apply list_elem_of_further, list_elem_of_here.
  - reflexivity.
  - reflexivity.
  - reflexivity.
  - vm_compute. reflexivity.
  - vm_compute. reflexivity.
Defined.

Lemma unset_country_matches_nothing_witness :
  signal_appointments
    (emitted (check_appointments (H := sample_runtime) unset_settings seen_history
                "01.05.2024 - 09:05:00" (Ok (JList two_centres)))) = [].
Proof.
  apply (unset_country_matches_nothing (H := sample_runtime) unset_settings seen_history
           "01.05.2024 - 09:05:00" (Ok (JList two_centres))).
  left. reflexivity.
Defined.


Lemma other_route_passed_over_witness :
  let st := (history_appointments seen_history, []) in
  process_appointment (H := sample_runtime) sample_settings st (JDict france_fields)
    = Ok st /\
  forall l1 l2,
    process_all (H := sample_runtime) sample_settings st
      (l1 ++ JDict france_fields :: l2)
    = process_all (H := sample_runtime) sample_settings st (l1 ++ l2).
Proof.
  intros st.
  apply (other_route_passed_over (H := sample_runtime) sample_settings st france_fields).
  right. reflexivity.
Defined.

(** The list of countries the sample file gives. *)
Example countries_of_examples_file :
  load_countries (Some (Ok (JList examples_file)))
  = ["Austria"; "Germany"; "Poland"; "Turkey"].
Proof. vm_compute. reflexivity. Qed.

(** Two cycles of a worker with an interval of two seconds, the flag
    being set from the sixth reading on. *)
Example two_cycles_then_stop :
  run quick_settings 4 (stopped_from 6) 0
  = Some [cycle_step 0; sleep_step 1; sleep_step 2;
          cycle_step 3; sleep_step 4; sleep_step 5].
Proof. vm_compute. reflexivity. Qed.
